(** * niimasker: time-series extraction from 4-D NIfTI images

    A shallow embedding of [niimasker/niimasker.py] and the properties of
    its specification.

    Conventions of the embedding.
    - A Python call either returns a value or raises: every source function
      is a computation in the exception monad [result]; the driver and the
      orchestrator, which write files, also thread the files written so
      far ([io]).
    - Voxel and regressor values are floats in the source; here they are
      rationals ([Q]), so arithmetic is exact and there is neither inf nor
      nan: a statement about the values of a gradient carries the
      hypothesis that the spacing is not zero.
    - The libraries the module delegates to (the image readers of nibabel
      and nilearn, the table reader of pandas, the [fit_transform] of the
      maskers) are variables of the section that holds the drivers.  They
      are functions of their arguments: what they return does not depend on
      the tables the batch writes, and fitting a masker on one image leaves
      no trace on the next.  Building a masker does not raise.
    - Which paths can be opened for writing is a variable too ([writable]):
      the module creates no directory, so the answer does not change while
      it runs.
    - The numpy and pandas operations the module's own logic relies on
      (slicing, [np.unique], [np.gradient], [np.mean], column selection,
      the [DataFrame] constructor, [pd.concat], [to_csv]) are defined here.
    - A written table is kept as its delimiter, its header and its records
      of fields; quoting and line ends are below that.
    - [print] calls are informational and are left out. *)

From Stdlib Require Import ZArith QArith Qabs List String Ascii Lia Bool.
From Stdlib Require Import DecimalString Permutation Sorted.
From Stdlib Require Import DecimalNat DecimalFacts FinFun.
From stdpp Require Import gmap strings.

Import ListNotations.
Local Open Scope string_scope.
Local Open Scope list_scope.

(* ===================================================================== *)
(** ** Python values, exceptions and slices *)
(* ===================================================================== *)

Module Py.

(** The exceptions that reach a caller of the module. *)
Inductive exn : Type :=
| KeyError (key : string)
| IndexError (msg : string)
| ValueError (msg : string)
| TypeError (msg : string)
| OSError (msg : string).

Inductive result (A : Type) : Type :=
| Ok (a : A)
| Err (e : exn).
Arguments Ok {A} a.
Arguments Err {A} e.

Definition bind {A B} (m : result A) (k : A -> result B) : result B :=
  match m with
  | Ok a => k a
  | Err e => Err e
  end.

Definition raises {A} (m : result A) : Prop := exists e, m = Err e.

(** Values that travel as labels or keyword arguments. *)
Inductive value : Type :=
| VNone
| VInt (z : Z)
| VFloat (q : Q)
| VStr (s : string)
| VBool (b : bool).

(** Decimal numerals, as [str] and ['{}'.format] print integers. *)
Definition str_of_nat (n : nat) : string :=
  NilZero.string_of_uint (Nat.to_uint n).

Definition str_of_Z (z : Z) : string :=
  NilZero.string_of_int (Z.to_int z).

(** [l[n:]] on a sequence of length [len]: a negative start counts from
    the end, and a start outside the sequence is moved to its nearest
    end. *)
Definition slice_start (n : Z) (len : nat) : nat :=
  if (n <? 0)%Z then Z.to_nat (Z.max (Z.of_nat len + n) 0)
  else Nat.min (Z.to_nat n) len.

Definition slice_from {A} (n : Z) (l : list A) : list A :=
  skipn (slice_start n (List.length l)) l.

(** ['needle' in hay] *)
Fixpoint contains (needle hay : string) : bool :=
  String.prefix needle hay ||
  match hay with
  | EmptyString => false
  | String _ rest => contains needle rest
  end.

(** [s.split('.')[0]]: the text before the first dot. *)
Fixpoint before_first_dot (s : string) : string :=
  match s with
  | EmptyString => EmptyString
  | String c rest =>
      if Ascii.eqb c "."%char then EmptyString
      else String c (before_first_dot rest)
  end.

(** [os.path.basename] (POSIX): the text after the last slash. *)
Fixpoint basename (p : string) : string :=
  match p with
  | EmptyString => EmptyString
  | String c rest =>
      if contains "/" rest then basename rest
      else if Ascii.eqb c "/"%char then rest
      else p
  end.

Fixpoint ends_with_slash (p : string) : bool :=
  match p with
  | EmptyString => false
  | String c EmptyString => Ascii.eqb c "/"%char
  | String _ rest => ends_with_slash rest
  end.

(** [os.path.join a b] (POSIX), two components. *)
Definition path_join (a b : string) : string :=
  if String.prefix "/" b then b
  else if (String.eqb a "" || ends_with_slash a)%bool then a ++ b
  else a ++ "/" ++ b.

(** ['\t'] *)
Definition tab : string := String (ascii_of_nat 9) EmptyString.

(** ['%.<prec>f' % q]: fixed-point notation with [prec] decimals, the
    exact value rounded to nearest, ties to even. *)
Definition digit (d : N) : ascii := ascii_of_N (48 + d).

Fixpoint digits_fixed (w : nat) (n : N) : string :=
  match w with
  | O => EmptyString
  | S w' => digits_fixed w' (n / 10) ++ String (digit (n mod 10)) EmptyString
  end.

Definition round_half_even (a d : N) : N :=
  let q := (a / d)%N in
  let r := (a mod d)%N in
  if ((d <? 2 * r) || ((2 * r =? d) && N.odd q))%N then (q + 1)%N else q.

Definition format_percent_f (prec : nat) (q : Q) : string :=
  let scale := (10 ^ N.of_nat prec)%N in
  let n := round_half_even (Z.abs_N (Qnum q) * scale) (Npos (Qden q)) in
  (if (Qnum q <? 0)%Z then "-" else "")
  ++ NilZero.string_of_uint (N.to_uint (n / scale))
  ++ (match prec with O => "" | _ => "." end)
  ++ digits_fixed prec (n mod scale).

(** Labels: region names or integer codes, and what [str] makes of
    them. *)
Inductive label : Type :=
| LInt (z : Z)
| LStr (s : string).

Definition str (l : label) : string :=
  match l with
  | LInt z => str_of_Z z
  | LStr s => s
  end.

(** The [labels] argument is documented as "str or list of str". *)
Inductive labels : Type :=
| OneStr (s : string)
| Labels (l : list label).

(** Iterating over the argument: a list yields its items, a string its
    characters. *)
Definition iter_labels (l : labels) : list label :=
  match l with
  | OneStr s => map (fun c => LStr (String c EmptyString)) (list_ascii_of_string s)
  | Labels l => l
  end.

(** [l[i]] for a non-negative index. *)
Definition getitem {A} (l : list A) (i : nat) : result A :=
  match nth_error l i with
  | Some a => Ok a
  | None => Err (IndexError "list index out of range")
  end.

(** [d[key]] on a dict with string keys. *)
Definition dict_getitem {A} (d : gmap string A) (key : string) : result A :=
  match d !! key with
  | Some a => Ok a
  | None => Err (KeyError key)
  end.

End Py.

Export Py.

#[global] Instance result_ret : MRet result := fun _ a => Ok a.
#[global] Instance result_bind : MBind result := fun _ _ k m => Py.bind m k.
#[global] Instance result_fmap : FMap result :=
  fun _ _ f m => Py.bind m (fun a => Ok (f a)).

(* ===================================================================== *)
(** ** numpy arrays *)
(* ===================================================================== *)

Module Np.

(** A 2-D array, row major.  The column count is kept apart from the rows
    because an array with no row still has a second dimension. *)
Record ndarray2 : Type := mk_ndarray2 {
  n_cols : nat;
  rows : list (list Q)
}.

Definition n_rows (m : ndarray2) : nat := List.length (rows m).

Definition wf (m : ndarray2) : Prop :=
  Forall (fun r => List.length r = n_cols m) (rows m).

(** [m[n:, :]] *)
Definition slice_rows (n : Z) (m : ndarray2) : ndarray2 :=
  {| n_cols := n_cols m; rows := Py.slice_from n (rows m) |}.

(** Column [j] of the array. *)
Definition column (j : nat) (m : ndarray2) : list Q :=
  map (fun r => nth j r 0%Q) (rows m).

(** A 4-D array [(x, y, z, t)] is kept as the list of its frames along
    the last axis; a frame is the flattened spatial block at one time
    point.  [shape[3]] is the length of the list. *)
Definition ndarray4 : Type := list (list Q).

(** [arr[:, :, :, n:]]: every spatial index, the time indices from [n]. *)
Definition slice_time (n : Z) (arr : ndarray4) : ndarray4 :=
  Py.slice_from n arr.

(** An array handed to the [DataFrame] constructor: 1-D or 2-D. *)
Inductive ndarray : Type :=
| Arr1 (v : list Q)
| Arr2 (m : ndarray2).

(** [np.unique]: the sorted distinct values of the flattened array. *)
Fixpoint insert_unique (x : Z) (l : list Z) : list Z :=
  match l with
  | [] => [x]
  | y :: t =>
      if (x <? y)%Z then x :: l
      else if (x =? y)%Z then l
      else y :: insert_unique x t
  end.

Definition unique (data : list Z) : list Z :=
  fold_right insert_unique [] data.

(** [np.mean(m, axis=1)]: one value per row.  (On a row with no entry
    numpy gives nan; here the quotient by zero is [0].) *)
Definition sum (r : list Q) : Q := fold_right Qplus 0%Q r.

Definition mean (r : list Q) : Q :=
  (sum r / inject_Z (Z.of_nat (List.length r)))%Q.

Definition mean_axis1 (m : ndarray2) : list Q := map mean (rows m).

(** A scalar spacing as numpy reads it. *)
Definition as_number (v : Py.value) : option Q :=
  match v with
  | Py.VInt z => Some (inject_Z z)
  | Py.VFloat q => Some q
  | Py.VBool b => Some (if b then 1%Q else 0%Q)
  | Py.VNone | Py.VStr _ => None
  end.

(** [np.gradient] of one column of at least two samples at uniform
    spacing [h], default [edge_order]: central differences at the
    interior points, one-sided differences at both ends.  (At spacing zero
    numpy gives inf or nan; here the quotient by zero is [0], and what is
    proved of the values of a gradient is proved for a spacing other than
    zero.) *)
Fixpoint interior (h : Q) (xs : list Q) : list Q :=
  match xs with
  | a :: ((_ :: c :: _) as tl) => ((c - a) / (2 * h))%Q :: interior h tl
  | _ => []
  end.

Fixpoint last_difference (h : Q) (xs : list Q) : Q :=
  match xs with
  | [a; b] => ((b - a) / h)%Q
  | _ :: tl => last_difference h tl
  | [] => 0%Q
  end.

Definition gradient_1d (h : Q) (xs : list Q) : list Q :=
  match xs with
  | x0 :: x1 :: _ =>
      ((x1 - x0) / h)%Q :: interior h xs ++ [last_difference h xs]
  | _ => []
  end.

(** The columns of an array, and the array of given columns. *)
Definition columns_of (m : ndarray2) : list (list Q) :=
  map (fun j => column j m) (seq 0 (n_cols m)).

Definition of_columns (n : nat) (cs : list (list Q)) : ndarray2 :=
  {| n_cols := List.length cs;
     rows := map (fun i => map (fun c => nth i c 0%Q) cs) (seq 0 n) |}.

(** [np.gradient(f, spacing, axis=0)] *)
Definition gradient (f : ndarray2) (spacing : Py.value)
  : Py.result ndarray2 :=
  if (n_rows f <? 2)%nat then
    Py.Err (Py.ValueError
      "Shape of array too small to calculate a numerical gradient, at least (edge_order + 1) elements are required.")
  else
    match as_number spacing with
    | Some h =>
        Py.Ok (of_columns (n_rows f) (map (gradient_1d h) (columns_of f)))
    | None => Py.Err (Py.TypeError "unsupported operand type(s) for *")
    end.

End Np.

Export Np.

(* ===================================================================== *)
(** ** nibabel images *)
(* ===================================================================== *)

Module Nib.

(** An image is its data array and its affine.  [A] is the array type:
    [ndarray4] for a functional image, the flattened list of integer
    labels for a mask. *)
Record Nifti1Image (A : Type) : Type := mk_Nifti1Image {
  get_data : A;
  affine : list (list Q)
}.
Arguments mk_Nifti1Image {A} _ _.
Arguments get_data {A} _.
Arguments affine {A} _.

Definition n_frames (img : Nifti1Image ndarray4) : nat :=
  List.length (get_data img).

End Nib.

Export Nib.

(* ===================================================================== *)
(** ** Scan trimmer *)
(* ===================================================================== *)

(** Remove first number of scans from functional image and regressors. *)
Definition _discard_initial_scans (img : Nifti1Image ndarray4) (n_scans : Z)
    (regressors : option ndarray2)
  : result (Nifti1Image ndarray4 * option ndarray2) :=
  (* crop scans from functional *)
  let arr := get_data img in
  let arr := slice_time n_scans arr in
  let out_img := mk_Nifti1Image arr (affine img) in
  let out_reg :=
    match regressors with
    | Some r => Some (slice_rows n_scans r)   (* crop from regressors *)
    | None => None
    end in
  Ok (out_img, out_reg).

(** The [discard_scans] block of [_mask_and_save]: the trimmer runs only
    for a count that is given and positive. *)
Definition discard_block (discard_scans : option Z)
    (img : Nifti1Image ndarray4) (confounds : option ndarray2)
  : result (Nifti1Image ndarray4 * option ndarray2) :=
  match discard_scans with
  | Some n =>
      if (n >? 0)%Z then _discard_initial_scans img n confounds
      else Ok (img, confounds)
  | None => Ok (img, confounds)
  end.

(* ===================================================================== *)
(** ** pandas tables *)
(* ===================================================================== *)

Module Pd.

(** A table with the default row index: column labels (duplicates are
    possible) over a 2-D block of values. *)
Record DataFrame : Type := mk_DataFrame {
  columns : list string;
  values : ndarray2
}.

Definition wf_frame (df : DataFrame) : Prop :=
  List.length (columns df) = n_cols (values df) /\ Np.wf (values df).

(** [pd.DataFrame(data, columns=cols)]: a 1-D array is one column; the
    number of labels must be the number of columns. *)
Definition as_2d (data : ndarray) : ndarray2 :=
  match data with
  | Arr1 v => {| n_cols := 1; rows := map (fun x => [x]) v |}
  | Arr2 m => m
  end.

Definition DataFrame_new (data : ndarray) (cols : list string)
  : result DataFrame :=
  let m := as_2d data in
  if (n_cols m =? List.length cols)%nat then
    Ok {| columns := cols; values := m |}
  else
    Err (ValueError "Shape of passed values does not match the indices").

(** The positions, counted from [off], of the labels that satisfy [p]. *)
Fixpoint index_where (p : string -> bool) (off : nat) (cols : list string)
  : list nat :=
  match cols with
  | [] => []
  | c :: t =>
      (if p c then [off] else []) ++ index_where p (S off) t
  end.

(** The columns at the given positions. *)
Definition take_columns (idx : list nat) (df : DataFrame) : DataFrame :=
  {| columns := map (fun j => nth j (columns df) EmptyString) idx;
     values :=
       {| n_cols := List.length idx;
          rows := map (fun r => map (fun j => nth j r 0%Q) idx)
                      (rows (values df)) |} |}.

(** [df[names]] for a list of labels: for every requested label, in the
    order requested, every column that carries it; a label that no
    column carries is a [KeyError]. *)
Fixpoint locate (cols : list string) (names : list string)
  : result (list nat) :=
  match names with
  | [] => Ok []
  | nm :: rest =>
      match index_where (String.eqb nm) 0 cols with
      | [] => Err (KeyError nm)
      | here => tl ← locate cols rest; Ok (here ++ tl)
      end
  end.

Definition select (df : DataFrame) (names : option (list string))
  : result DataFrame :=
  match names with
  | None => Err (KeyError "None")
  | Some names => idx ← locate (columns df) names; Ok (take_columns idx df)
  end.

(** [pd.concat([a, b], axis=1)] of two tables with the default index and
    the same number of rows. *)
Fixpoint zip_rows (ra rb : list (list Q)) : list (list Q) :=
  match ra, rb with
  | x :: ra', y :: rb' => (x ++ y) :: zip_rows ra' rb'
  | _, _ => []
  end.

Definition concat_axis1 (a b : DataFrame) : DataFrame :=
  {| columns := columns a ++ columns b;
     values :=
       {| n_cols := n_cols (values a) + n_cols (values b);
          rows := zip_rows (rows (values a)) (rows (values b)) |} |}.

(** What [to_csv] leaves in a file, as records of fields. *)
Record CsvFile : Type := mk_CsvFile {
  delimiter : string;
  header : list string;
  records : list (list string)
}.

Inductive float_format : Type :=
| PercentF (precision : nat).   (* '%.<precision>f' *)

Definition format_float (ff : float_format) (q : Q) : string :=
  match ff with
  | PercentF prec => Py.format_percent_f prec q
  end.

(** The rows of a table as fields; with [index] the row number leads
    every record and an empty field leads the header. *)
Fixpoint render_rows (ff : float_format) (index : bool) (i : nat)
    (rs : list (list Q)) : list (list string) :=
  match rs with
  | [] => []
  | r :: rest =>
      ((if index then [Py.str_of_nat i] else []) ++ map (format_float ff) r)
      :: render_rows ff index (S i) rest
  end.

Definition render (df : DataFrame) (sep : string) (index : bool)
    (ff : float_format) : CsvFile :=
  {| delimiter := sep;
     header := (if index then [EmptyString] else []) ++ columns df;
     records := render_rows ff index 0 (rows (values df)) |}.

(** The files written so far, by path. *)
Abbreviation filesystem := (gmap string CsvFile).

(** A computation that may write files and may raise; what was written
    before an exception stays written. *)
Definition io (A : Type) : Type := filesystem -> filesystem * result A.

Definition io_ret {A} (a : A) : io A := fun fs => (fs, Ok a).

Definition io_bind {A B} (m : io A) (k : A -> io B) : io B :=
  fun fs =>
    match m fs with
    | (fs', Ok a) => k a fs'
    | (fs', Err e) => (fs', Err e)
    end.

Definition lift {A} (r : result A) : io A := fun fs => (fs, r).

(** [df.to_csv(path, sep=sep, index=index, float_format=ff)].  The file
    is opened for writing first: [writable] tells for which paths the
    operating system allows it (the directory of the path exists and the
    process may create or replace the file there).  On any other path the
    call raises [OSError], carrying the path, and nothing is written. *)
Definition to_csv (writable : string -> bool) (df : DataFrame)
    (path : string) (sep : string) (index : bool) (ff : float_format)
  : io unit :=
  fun fs =>
    if writable path then (<[path := render df sep index ff]> fs, Ok tt)
    else (fs, Err (OSError path)).

End Pd.

Export Pd.

#[global] Instance io_mret : MRet io := @io_ret.
#[global] Instance io_mbind : MBind io := fun _ _ k m => io_bind m k.

(** A computation that does nothing but write one file, whatever the files
    before it. *)
Definition writes_file (task : io unit) (w : string * CsvFile) : Prop :=
  forall fs : filesystem, task fs = (<[fst w := snd w]> fs, Ok tt).

(** Writes carried out one after the other. *)
Definition apply_writes (ws : list (string * CsvFile)) (fs : filesystem)
  : filesystem :=
  fold_left (fun acc w => <[fst w := snd w]> acc) ws fs.

(* ===================================================================== *)
(** ** The worker pool *)
(* ===================================================================== *)

Module Mp.

Section Pool.
Context {T : Type}.

(** [Pool.starmap] cuts the task list into consecutive chunks of
    [ceil(len / (4 * processes))] tasks. *)
Definition chunksize (n_tasks processes : nat) : nat :=
  n_tasks / (4 * processes)
  + (if (n_tasks mod (4 * processes) =? 0)%nat then 0 else 1).

Fixpoint chunks_of (fuel size : nat) (l : list T) : list (list T) :=
  match fuel, l with
  | S fuel', _ :: _ => firstn size l :: chunks_of fuel' size (skipn size l)
  | _, _ => []
  end.

(** The pool while it works: the tasks each chunk has still to run, the
    files, and the first exception met so far. *)
Record pool_state : Type := mk_pool_state {
  pending : list (list T);
  files : filesystem;
  failure : option exn
}.

Variable f : T -> io unit.

(** The worker that holds chunk [c] runs the next task of the chunk.  A
    task that raises ends its chunk; the other chunks are not touched. *)
Definition pool_step (st : pool_state) (c : nat) : pool_state :=
  match pending st !! c with
  | Some (t :: rest) =>
      match f t (files st) with
      | (fs', Ok _) =>
          {| pending := <[c := rest]> (pending st);
             files := fs';
             failure := failure st |}
      | (fs', Err e) =>
          {| pending := <[c := []]> (pending st);
             files := fs';
             failure := match failure st with
                        | Some e0 => Some e0
                        | None => Some e
                        end |}
      end
  | _ => st
  end.

(** A schedule names, step by step, the chunk whose worker moves. *)
Definition run_schedule (sched : list nat) (st : pool_state) : pool_state :=
  fold_left pool_step sched st.

(** [starmap] returns once every chunk is through: whatever the schedule
    left is run, chunk after chunk, each chunk up to its first exception. *)
Fixpoint run_chunk (chunk : list T) (fs : filesystem) (failure : option exn)
  : filesystem * option exn :=
  match chunk with
  | [] => (fs, failure)
  | t :: rest =>
      match f t fs with
      | (fs', Ok _) => run_chunk rest fs' failure
      | (fs', Err e) =>
          (fs', match failure with
                | Some e0 => Some e0
                | None => Some e
                end)
      end
  end.

Definition drain (st : pool_state) : filesystem * option exn :=
  fold_left (fun acc chunk => run_chunk chunk (fst acc) (snd acc))
            (pending st) (files st, failure st).

(** [with multiprocessing.Pool(processes=n) as pool: pool.starmap(f, args)].
    Any order in which the workers take turns is a schedule; the result is
    the first exception met, if any. *)
Definition starmap (sched : list nat) (processes : Z) (args : list T)
  : io unit :=
  fun fs =>
    if (processes <? 1)%Z then
      (fs, Err (ValueError "Number of processes must be at least 1"))
    else
      let size := chunksize (List.length args) (Z.to_nat processes) in
      let st0 := {| pending := chunks_of (List.length args) size args;
                    files := fs;
                    failure := None |} in
      let '(fs', failed) := drain (run_schedule sched st0) in
      (fs', match failed with
            | Some e => Err e
            | None => Ok tt
            end).

End Pool.

End Mp.

(* ===================================================================== *)
(** ** Predicates on tasks and on the pool *)
(* ===================================================================== *)

Section TaskPredicates.

Context {T : Type}.
Variable f : T -> io unit.
Variable w : T -> string * CsvFile.

(** Every task of the list writes its file and returns. *)
Definition all_write (l : list T) : Prop :=
  forall t, List.In t l -> writes_file (f t) (w t).

(** What holds of the pool between two steps when no task fails: the
    files are the writes of the tasks run so far, and those tasks with the
    pending ones are the tasks submitted. *)
Definition pool_inv (args : list T) (fs0 : filesystem)
    (st : Mp.pool_state) : Prop :=
  Mp.failure st = None
  /\ exists ran : list T,
       Mp.files st = apply_writes (map w ran) fs0
       /\ Permutation (ran ++ concat (Mp.pending st)) args.

End TaskPredicates.

(* ===================================================================== *)
(** ** niimasker *)
(* ===================================================================== *)

(** The two maskers of nilearn, each holding the mask image and the
    keyword arguments it was built with. *)
Inductive masker : Type :=
| NiftiMasker (mask_img : Nifti1Image (list Z)) (kwargs : gmap string value)
| NiftiLabelsMasker (mask_img : Nifti1Image (list Z))
                    (kwargs : gmap string value).

(** [isinstance(masker, NiftiMasker)] *)
Definition is_NiftiMasker (m : masker) : bool :=
  match m with
  | NiftiMasker _ _ => true
  | NiftiLabelsMasker _ _ => false
  end.

(** A mask argument: a path, or an image already in memory. *)
Inductive niimg_like : Type :=
| Path (p : string)
| InMemory (img : Nifti1Image (list Z)).

(** Compute derivatives from motion realignment parameters. *)
Definition is_realign (i : string) : bool :=
  Py.contains "rot" i || Py.contains "trans" i.

Definition _compute_realign_derivs (regressors : DataFrame) (t_r : value)
  : result DataFrame :=
  let cols := List.filter is_realign (columns regressors) in
  realign ← values <$> select regressors (Some cols);
  (* compute central differences with sample distances = TR; (dx) *)
  derivs ← Np.gradient realign t_r;
  let deriv_cols := map (fun i => (i ++ "_d")%string) cols in
  d ← DataFrame_new (Arr2 derivs) deriv_cols;
  Ok (concat_axis1 regressors d).

(** Check and see if multiple ROIs exist in atlas file. *)
Definition _set_masker (mask_img : Nifti1Image (list Z))
    (kwargs : gmap string value) : result masker :=
  let n_rois := Np.unique (get_data mask_img) in
  if (2 <? List.length n_rois)%nat then
    Ok (NiftiLabelsMasker mask_img kwargs)
  else if (List.length n_rois =? 2)%nat then
    Ok (NiftiMasker mask_img kwargs)
  else
    (* only 1 value found *)
    Err (ValueError "No ROI detected; check ROI file").

Section Niimasker.

(** The collaborators: the image and table readers, the extraction
    engine with the labels an atlas masker reports, and the paths that can
    be opened for writing. *)
Variable nib_load : string -> result (Nifti1Image ndarray4).
Variable load_img : string -> result (Nifti1Image (list Z)).
Variable read_csv : string -> result DataFrame.
Variable fit_transform :
  masker -> Nifti1Image ndarray4 -> option ndarray2 -> result ndarray2.
Variable labels_ : masker -> labels.
Variable writable : string -> bool.

Definition load_niimg (m : niimg_like) : result (Nifti1Image (list Z)) :=
  match m with
  | Path p => load_img p
  | InMemory img => Ok img
  end.

(** Create regressors for masking. *)
Definition _build_regressors (fname : string)
    (regressor_names : option (list string)) (realign_derivatives : bool)
    (t_r : value) : result ndarray2 :=
  all_regressors ← read_csv fname;
  regressors ← select all_regressors regressor_names;
  regressors ←
    (if realign_derivatives then
       match t_r with
       | VNone =>
           Err (ValueError "t_r not provided for realignment derivatives.")
       | _ => _compute_realign_derivs regressors t_r
       end
     else Ok regressors);
  Ok (values regressors).

(** Extract timeseries from an image and apply post-processing. *)
Definition _mask (m : masker) (img : Nifti1Image ndarray4)
    (confounds : option ndarray2) (roi_labels : option labels)
    (as_voxels : bool) : result DataFrame :=
  timeseries ← fit_transform m img confounds;
  let '(timeseries, labels) :=
    if is_NiftiMasker m then
      if as_voxels then
        (Arr2 timeseries,
         Labels (map (fun i => LStr ("voxel" ++ str_of_nat i)%string)
                     (seq 0 (n_cols timeseries))))
      else
        (Arr1 (mean_axis1 timeseries),
         match roi_labels with
         | None => Labels [LStr "roi"]
         | Some l => l
         end)
    else
      (Arr2 timeseries,
       match roi_labels with
       | None => labels_ m
       | Some l => l
       end) in
  DataFrame_new timeseries (map str (iter_labels labels)).

(** Runs the full masking process and saves output for a single image. *)
Definition _mask_and_save (m : masker) (img_name : string)
    (output_dir : string) (regressor_file : option string)
    (regressor_names : option (list string)) (realign_derivs : bool)
    (t_r : value) (as_voxels : bool) (labels : option labels)
    (discard_scans : option Z) : io unit :=
  let basename := Py.basename img_name in
  img ← lift (nib_load img_name);
  confounds ← lift
    (match regressor_file with
     | Some file =>
         Some <$> _build_regressors file regressor_names realign_derivs t_r
     | None => Ok None
     end);
  '(img, confounds) ← lift (discard_block discard_scans img confounds);
  data ← lift (_mask m img confounds labels as_voxels);
  let out_fname := (Py.before_first_dot basename ++ "_timeseries.tsv")%string in
  to_csv writable data (Py.path_join output_dir out_fname) Py.tab false
         (PercentF 8).

(** One call of the driver as the pool makes it: the image and its
    confound file vary, every other argument is held constant. *)
Definition task (m : masker) (output_dir : string)
    (regressor_names : option (list string)) (realign_derivs : bool)
    (t_r : value) (as_voxels : bool) (labels : option labels)
    (discard_scans : option Z) (a : string * option string) : io unit :=
  let '(img, file) := a in
  _mask_and_save m img output_dir file regressor_names realign_derivs t_r
                 as_voxels labels discard_scans.

(** [for x in l: body(x)] *)
Fixpoint for_each {T} (body : T -> io unit) (l : list T) : io unit :=
  match l with
  | [] => mret tt
  | x :: rest => _ ← body x; for_each body rest
  end.

Definition enumerate {T} (l : list T) : list (nat * T) :=
  combine (seq 0 (List.length l)) l.

(** Extract timeseries data from input files using an roi file to demark
    the region(s) of interest(s).  [sched] is the order in which the
    workers of the pool take turns; it plays no part when [n_jobs] is 1. *)
Definition make_timeseries (sched : list nat) (input_files : list string)
    (mask_img : niimg_like) (output_dir : string) (labels : option labels)
    (regressor_files : option (list string))
    (regressor_names : option (list string)) (realign_derivs : bool)
    (as_voxels : bool) (discard_scans : option Z) (n_jobs : Z)
    (masker_kwargs : gmap string value) : io unit :=
  mask_img ← lift (load_niimg mask_img);
  m ← lift (_set_masker mask_img masker_kwargs);
  (* set as list of NoneType if no regressor files *)
  let regressor_files : list (option string) :=
    match regressor_files with
    | None => repeat None (List.length input_files)
    | Some l => map Some l
    end in
  if (n_jobs =? 1)%Z then
    (* no parallelization *)
    for_each
      (fun '(i, img) =>
         file ← lift (getitem regressor_files i);
         t_r ← lift (dict_getitem masker_kwargs "t_r");
         _mask_and_save m img output_dir file regressor_names
                        realign_derivs t_r as_voxels labels discard_scans)
      (enumerate input_files)
  else
    (* repeat parameters are held constant for all parallelized iterations *)
    t_r ← lift (dict_getitem masker_kwargs "t_r");
    let args := combine input_files regressor_files in
    Mp.starmap
      (task m output_dir regressor_names realign_derivs t_r as_voxels labels
            discard_scans)
      sched n_jobs args.

End Niimasker.

(* ===================================================================== *)
(** ** The region count of the specification *)
(* ===================================================================== *)

(** The distinct non-zero values of a mask, zero being background. *)
Definition nonzero_labels (data : list Z) : list Z :=
  Np.unique (List.filter (fun v => negb (v =? 0)%Z) data).

(* ===================================================================== *)
(** ** The output file of the specification *)
(* ===================================================================== *)

(** [s] without the [suffix] it ends with, if it ends with it. *)
Fixpoint drop_suffix (suffix s : string) : option string :=
  if String.eqb s suffix then Some EmptyString
  else match s with
       | EmptyString => None
       | String c rest => option_map (String c) (drop_suffix suffix rest)
       end.

(** The text before the last dot; all of it when there is no dot. *)
Fixpoint before_last_dot (s : string) : string :=
  match s with
  | EmptyString => EmptyString
  | String c rest =>
      if Py.contains "." rest then String c (before_last_dot rest)
      else if Ascii.eqb c "."%char then EmptyString
      else s
  end.

(** "The image's base name without extension": the base name with the
    image extension [.nii.gz] taken off, or else cut at its last dot. *)
Definition basename_without_extension (img_name : string) : string :=
  let name := Py.basename img_name in
  match drop_suffix ".nii.gz" name with
  | Some stem => stem
  | None => before_last_dot name
  end.

(** The path the specification names for the table of an image. *)
Definition specified_output_path (output_dir img_name : string) : string :=
  Py.path_join output_dir
    (basename_without_extension img_name ++ "_timeseries.tsv").

(** The number a run of decimal digits denotes, most significant digit
    first, continuing from [acc]; nothing when a character is no digit. *)
Fixpoint digits_value (s : string) (acc : N) : option N :=
  match s with
  | EmptyString => Some acc
  | String c rest =>
      let k := N_of_ascii c in
      if ((48 <=? k) && (k <=? 57))%N
      then digits_value rest (10 * acc + (k - 48))
      else None
  end.

(** "Formatted to [prec] decimal places" ([prec] positive): a minus sign
    for a negative value, the numeral of a whole number, a point and
    [prec] digits, which together denote the multiple [n] of [10^-prec]
    nearest to the value, the even one of the two when the value lies
    halfway. *)
Definition formatted_to (prec : nat) (q : Q) (field : string) : Prop :=
  exists (n : N) (decimals : string),
    let x := (Qabs q * inject_Z (10 ^ Z.of_nat prec))%Q in
    let off := Qabs (x - inject_Z (Z.of_N n)) in
    (off <= 1 # 2)%Q
    /\ ((off == 1 # 2)%Q -> N.even n = true)
    /\ field =
         ((if Qle_bool 0 q then "" else "-")
          ++ NilZero.string_of_uint (N.to_uint (n / 10 ^ N.of_nat prec))
          ++ "." ++ decimals)%string
    /\ String.length decimals = prec
    /\ digits_value decimals 0 = Some (n mod 10 ^ N.of_nat prec)%N.

(* ===================================================================== *)
(** ** A small world to run the drivers in *)
(* ===================================================================== *)

Module Toy.

Definition identity_affine : list (list Q) :=
  [[1; 0; 0; 0]; [0; 1; 0; 0]; [0; 0; 1; 0]; [0; 0; 0; 1]]%Q.

(** Two voxels over three frames. *)
Definition bold : Nifti1Image ndarray4 :=
  {| get_data := [[1; 3]; [2; 6]; [4; 5]]%Q; affine := identity_affine |}.

(** Two voxels over two frames. *)
Definition two_frames : Nifti1Image ndarray4 :=
  {| get_data := [[1; 3]; [2; 6]]%Q; affine := identity_affine |}.

(** Two voxels over three frames, with values that do not end after
    eight decimals, two of them halfway between two printed values. *)
Definition fractions : Nifti1Image ndarray4 :=
  {| get_data := [[1 # 3; - 2 # 3]; [1 # 512; 3 # 512];
                  [- 1 # 1000000000; 5 # 2]]%Q;
     affine := identity_affine |}.

Definition binary_mask : Nifti1Image (list Z) :=
  {| get_data := [0; 1; 1; 0]%Z; affine := identity_affine |}.

Definition atlas : Nifti1Image (list Z) :=
  {| get_data := [0; 1; 2; 1]%Z; affine := identity_affine |}.

(** Masks without a background voxel. *)
Definition all_ones : Nifti1Image (list Z) :=
  {| get_data := [1; 1; 1; 1]%Z; affine := identity_affine |}.

Definition two_labels_no_background : Nifti1Image (list Z) :=
  {| get_data := [1; 2; 2; 1]%Z; affine := identity_affine |}.

Definition confound_table : DataFrame :=
  {| columns := ["rot_x"; "trans_y"; "other"];
     values := {| n_cols := 3;
                  rows := [[1; 2; 3]; [2; 4; 6]; [4; 8; 12]]%Q |} |}.

Definition one_row_table : DataFrame :=
  {| columns := ["rot_x"; "other"];
     values := {| n_cols := 2; rows := [[1; 2]]%Q |} |}.

(** Every image exists except the one called [missing.nii.gz]; the images
    under [run-2/] and under [run-3/] hold other data than the rest. *)
Definition nib_load (name : string) : result (Nifti1Image ndarray4) :=
  if String.eqb (Py.basename name) "missing.nii.gz"
  then Err (OSError "No such file or no access")
  else if Py.contains "run-2/" name then Ok two_frames
  else if Py.contains "run-3/" name then Ok fractions
  else Ok bold.

Definition load_img (name : string) : result (Nifti1Image (list Z)) :=
  Ok binary_mask.

Definition read_csv (name : string) : result DataFrame :=
  Ok confound_table.

(** One column per voxel of the frame: the frames are the rows. *)
Definition fit_transform (m : masker) (img : Nifti1Image ndarray4)
    (confounds : option ndarray2) : result ndarray2 :=
  Ok {| n_cols := 2; rows := get_data img |}.

Definition labels_ (m : masker) : labels := Labels [LInt 1; LInt 2].

(** Every directory can be written to except [nodir], which does not
    exist. *)
Definition writable (path : string) : bool :=
  negb (String.prefix "nodir/" path).

Definition t_r_2 : gmap string value := {[ "t_r" := VFloat 2 ]}.

(** The tables the atlas masker gives for the two images of this world. *)
Definition table_of_bold : CsvFile :=
  {| delimiter := Py.tab;
     header := ["1"; "2"];
     records := [["1.00000000"; "3.00000000"];
                 ["2.00000000"; "6.00000000"];
                 ["4.00000000"; "5.00000000"]] |}.

Definition table_of_two_frames : CsvFile :=
  {| delimiter := Py.tab;
     header := ["1"; "2"];
     records := [["1.00000000"; "3.00000000"];
                 ["2.00000000"; "6.00000000"]] |}.

(** Where the driver writes for an image outside [run-2/], and what. *)
Definition plan (a : string * option string) : string * CsvFile :=
  (Py.path_join "out"
     (Py.before_first_dot (Py.basename (fst a)) ++ "_timeseries.tsv"),
   table_of_bold).

(** The batch of this world. *)
Definition batch :=
  make_timeseries nib_load load_img read_csv fit_transform labels_ writable.

End Toy.

(* ===================================================================== *)
(** ** Further definitions: output path, outcomes of tasks, the test *)
(* ===================================================================== *)

(** Where [_mask_and_save] writes the table of an image: [output_dir]
    joined with [basename.split('.')[0] + '_timeseries.tsv']. *)
Definition output_path (output_dir img_name : string) : string :=
  Py.path_join output_dir
    (Py.before_first_dot (Py.basename img_name) ++ "_timeseries.tsv").

Section Outcomes.

Variable nib_load : string -> result (Nifti1Image ndarray4).
Variable read_csv : string -> result DataFrame.
Variable fit_transform :
  masker -> Nifti1Image ndarray4 -> option ndarray2 -> result ndarray2.
Variable labels_ : masker -> labels.
Variable writable : string -> bool.

(** The steps of [_mask_and_save] before the write: the table it is about
    to write, or the exception that stops it. *)
Definition extracted_table (m : masker) (img_name : string)
    (regressor_file : option string) (regressor_names : option (list string))
    (realign_derivs : bool) (t_r : value) (as_voxels : bool)
    (labels : option labels) (discard_scans : option Z) : result CsvFile :=
  img ← nib_load img_name;
  confounds ←
    match regressor_file with
    | Some file =>
        Some <$> _build_regressors read_csv file regressor_names
                                   realign_derivs t_r
    | None => Ok None
    end;
  '(img, confounds) ← discard_block discard_scans img confounds;
  data ← _mask fit_transform labels_ m img confounds labels as_voxels;
  Ok (render data Py.tab false (PercentF 8)).

(** The whole of [_mask_and_save]: the table it writes, or the exception
    that stops it, be it before the write or at the write. *)
Definition written_table (m : masker) (img_name output_dir : string)
    (regressor_file : option string) (regressor_names : option (list string))
    (realign_derivs : bool) (t_r : value) (as_voxels : bool)
    (labels : option labels) (discard_scans : option Z) : result CsvFile :=
  table ← extracted_table m img_name regressor_file regressor_names
                          realign_derivs t_r as_voxels labels discard_scans;
  if writable (output_path output_dir img_name) then Ok table
  else Err (OSError (output_path output_dir img_name)).

(** What one task of the batch does: the path it writes to, and the table
    or the exception. *)
Definition task_outcome (m : masker) (output_dir : string)
    (regressor_names : option (list string)) (realign_derivs : bool)
    (t_r : value) (as_voxels : bool) (labels : option labels)
    (discard_scans : option Z) (a : string * option string)
  : string * result CsvFile :=
  (output_path output_dir (fst a),
   written_table m (fst a) output_dir (snd a) regressor_names realign_derivs
                 t_r as_voxels labels discard_scans).

End Outcomes.

(** A loop over tasks that stops at the first that raises: the writes
    made, and how the loop ends. *)
Fixpoint run_until_failure (l : list (string * result CsvFile))
  : list (string * CsvFile) * result unit :=
  match l with
  | [] => ([], Ok tt)
  | (path, Ok table) :: rest =>
      let '(ws, r) := run_until_failure rest in ((path, table) :: ws, r)
  | (_, Err e) :: _ => ([], Err e)
  end.

(** The writes of the tasks that do not raise. *)
Definition successes (l : list (string * result CsvFile))
  : list (string * CsvFile) :=
  flat_map (fun t => match snd t with
                     | Ok table => [(fst t, table)]
                     | Err _ => []
                     end) l.

(** The exceptions of the tasks that raise. *)
Definition failures (l : list (string * result CsvFile)) : list exn :=
  flat_map (fun t => match snd t with
                     | Ok _ => []
                     | Err e => [e]
                     end) l.

Section Settling.

Context {T : Type}.
Variable f : T -> io unit.
Variable outcome : T -> string * result CsvFile.

(** A task settles when, whatever the files, it either writes its table
    and returns or raises and writes nothing. *)
Definition settles (t : T) : Prop :=
  forall fs : filesystem,
    f t fs = match snd (outcome t) with
             | Ok table => (<[fst (outcome t) := table]> fs, Ok tt)
             | Err e => (fs, Err e)
             end.

(** What holds of the files and of the recorded exception once the tasks
    [ran] have run, from the files [fs0]: the files are the writes of
    those that did not raise, and an exception is recorded exactly when
    one of them raised, and is one of theirs. *)
Definition settled (ran : list T) (fs0 fs : filesystem)
    (failure : option exn) : Prop :=
  fs = apply_writes (successes (map outcome ran)) fs0
  /\ match failure with
     | None => failures (map outcome ran) = []
     | Some e => List.In e (failures (map outcome ran))
     end.

(** What holds of a pool whose chunks hold one task each, between two
    steps: every chunk has at most its task left, the tasks run so far with
    the pending ones are the tasks submitted, and files and recorded
    exception are those of the tasks run. *)
Definition singles_inv (args : list T) (fs0 : filesystem)
    (st : Mp.pool_state) : Prop :=
  Forall (fun chunk : list T => List.length chunk <= 1) (Mp.pending st)
  /\ exists ran : list T,
       Permutation (ran ++ concat (Mp.pending st)) args
       /\ settled ran fs0 (Mp.files st) (Mp.failure st).

End Settling.

(** The test of the trimmer in [tests/test_niimasker.py].  The fixture
    repeats one 3-D image over ten volumes; the test discards three scans
    and asserts the frame count and the absence of regressors. *)
Definition concat_repeated (img : Nifti1Image (list Q)) (n : nat)
  : Nifti1Image ndarray4 :=
  {| get_data := repeat (get_data img) n; affine := affine img |}.

Definition atlas_data (atlas : Nifti1Image (list Q)) : Nifti1Image ndarray4 :=
  concat_repeated atlas 10.

Definition test_discard_initial_scans (atlas_data : Nifti1Image ndarray4)
  : result bool :=
  let n_scans := 3%Z in
  '(img, regs) ← _discard_initial_scans atlas_data n_scans None;
  Ok ((Z.of_nat (n_frames img) =? Z.of_nat (n_frames atlas_data) - n_scans)%Z
      && match regs with None => true | Some _ => false end).

(* ===================================================================== *)
(** ** Properties: slices and the scan trimmer *)
(* ===================================================================== *)

Lemma slice_from_nonneg {A} (n : Z) (l : list A) :
  (0 <= n)%Z -> Py.slice_from n l = skipn (Z.to_nat n) l.
Proof.
  intros Hn. unfold Py.slice_from, Py.slice_start.
  destruct (Z.ltb_spec n 0) as [Hlt | _]; [lia |].
  destruct (Nat.le_ge_cases (Z.to_nat n) (List.length l)) as [Hle | Hge].
  - now rewrite Nat.min_l.
  - rewrite Nat.min_r by assumption.
    rewrite !skipn_all2; auto.
Qed.

Lemma slice_from_beyond {A} (n : Z) (l : list A) :
  (Z.of_nat (List.length l) <= n)%Z -> Py.slice_from n l = [].
Proof.
  intros Hn. rewrite slice_from_nonneg by lia.
  apply skipn_all2. lia.
Qed.

Lemma slice_rows_nonneg (n : Z) (r : ndarray2) :
  (0 <= n)%Z ->
  slice_rows n r = mk_ndarray2 (n_cols r) (skipn (Z.to_nat n) (rows r)).
Proof.
  intros Hn. unfold slice_rows. now rewrite slice_from_nonneg.
Qed.

(** C3, as the code has it.  For a count beyond the frames the trimmer
    raises nothing: the slice stops at the end of the time axis, so the
    result is a volume of no frame under the same affine, and a confound
    matrix keeps the rows it has from the count on (none when it has no
    more rows than the count). *)
Theorem discard_beyond_frames_is_empty
    (img : Nifti1Image ndarray4) (n : Z) (regs : option ndarray2) :
  (Z.of_nat (n_frames img) < n)%Z ->
  _discard_initial_scans img n regs =
    Ok ({| get_data := []; affine := affine img |},
        option_map
          (fun r => mk_ndarray2 (n_cols r) (skipn (Z.to_nat n) (rows r)))
          regs)
  /\ ~ raises (_discard_initial_scans img n regs).
Proof.
  intros Hn.
  assert (E : _discard_initial_scans img n regs =
    Ok ({| get_data := []; affine := affine img |},
        option_map
          (fun r => mk_ndarray2 (n_cols r) (skipn (Z.to_nat n) (rows r)))
          regs)).
  { unfold _discard_initial_scans, slice_time.
    rewrite slice_from_beyond by (unfold n_frames in Hn; lia).
    destruct regs as [r |]; simpl; [| reflexivity].
    rewrite slice_rows_nonneg by lia. reflexivity. }
  split; [exact E |].
  intros [e He]. rewrite E in He. discriminate.
Qed.

Lemma discard_beyond_frames_is_empty_witness :
  _discard_initial_scans Toy.two_frames 3 None =
    Ok ({| get_data := []; affine := affine Toy.two_frames |}, None)
  /\ ~ raises (_discard_initial_scans Toy.two_frames 3 None).
Proof.
  apply (discard_beyond_frames_is_empty Toy.two_frames 3 None).
  vm_compute. reflexivity.
Defined.

(** C3 read as stated fails: two frames, three scans to discard, and the
    trimmer returns. *)
Lemma discard_three_of_two_frames_returns :
  (Z.of_nat (n_frames Toy.two_frames) < 3)%Z
  /\ ~ raises (_discard_initial_scans Toy.two_frames 3 None).
Proof.
  split; [vm_compute; reflexivity |].
  intros [e He]. discriminate He.
Qed.

(** C4.  For a count between 0 and the number of frames the trimmer
    returns the frames from the count on under the unchanged affine, so
    [F - N] frames, and a confound matrix without its first [N] rows; a
    count that is absent or 0 leaves image and confounds as they are. *)
Theorem discard_within_frames
    (img : Nifti1Image ndarray4) (n : Z) (regs : option ndarray2) :
  (0 <= n <= Z.of_nat (n_frames img))%Z ->
  exists out_img out_reg,
    _discard_initial_scans img n regs = Ok (out_img, out_reg)
    /\ get_data out_img = skipn (Z.to_nat n) (get_data img)
    /\ Z.of_nat (n_frames out_img) = (Z.of_nat (n_frames img) - n)%Z
    /\ affine out_img = affine img
    /\ out_reg =
         option_map
           (fun r => mk_ndarray2 (n_cols r) (skipn (Z.to_nat n) (rows r)))
           regs
    /\ (forall r r', regs = Some r -> out_reg = Some r' ->
          n_rows r' = (n_rows r - Z.to_nat n)%nat)
    /\ ((0 < n)%Z -> discard_block (Some n) img regs = Ok (out_img, out_reg))
    /\ discard_block (Some 0%Z) img regs = Ok (img, regs)
    /\ discard_block None img regs = Ok (img, regs).
Proof.
  intros [H0 HF].
  exists {| get_data := skipn (Z.to_nat n) (get_data img);
            affine := affine img |}.
  exists (option_map
            (fun r => mk_ndarray2 (n_cols r) (skipn (Z.to_nat n) (rows r)))
            regs).
  assert (E : _discard_initial_scans img n regs =
    Ok ({| get_data := skipn (Z.to_nat n) (get_data img);
           affine := affine img |},
        option_map
          (fun r => mk_ndarray2 (n_cols r) (skipn (Z.to_nat n) (rows r)))
          regs)).
  { unfold _discard_initial_scans, slice_time.
    rewrite slice_from_nonneg by assumption.
    destruct regs as [r |]; simpl; [| reflexivity].
    now rewrite slice_rows_nonneg. }
  repeat split; try reflexivity.
  - exact E.
  - unfold n_frames in *. simpl. rewrite length_skipn. lia.
  - intros r r' -> Hr'. simpl in Hr'. injection Hr' as <-.
    unfold n_rows. simpl. apply length_skipn.
  - intros Hpos. unfold discard_block.
    destruct (Z.gtb_spec n 0); [exact E | lia].
Qed.

Lemma discard_within_frames_witness :
  exists out_img out_reg,
    _discard_initial_scans Toy.bold 2
      (Some (values Toy.confound_table)) = Ok (out_img, out_reg)
    /\ get_data out_img = [[4; 5]]%Q
    /\ out_reg = Some (mk_ndarray2 3 [[4; 8; 12]]%Q).
Proof.
  destruct (discard_within_frames Toy.bold 2
              (Some (values Toy.confound_table)))
    as (oi & og & E & Hd & _ & _ & Hr & _).
  - split; vm_compute; discriminate.
  - exists oi, og. repeat split; assumption.
Defined.

(* ===================================================================== *)
(** ** Properties: distinct values and the masker selector *)
(* ===================================================================== *)

Lemma insert_unique_In (x y : Z) (l : list Z) :
  List.In x (insert_unique y l) <-> x = y \/ List.In x l.
Proof.
  induction l as [| z t IH]; simpl.
  - intuition.
  - destruct (Z.ltb_spec y z) as [Hlt | Hge]; simpl; [intuition |].
    destruct (Z.eqb_spec y z) as [-> | Hne]; simpl.
    + intuition.
    + rewrite IH. intuition.
Qed.

Lemma insert_unique_sorted (y : Z) (l : list Z) :
  StronglySorted Z.lt l -> StronglySorted Z.lt (insert_unique y l).
Proof.
  induction l as [| z t IH]; simpl; intros Hs.
  - repeat constructor.
  - inversion Hs as [| ? ? Ht Hall]; subst.
    destruct (Z.ltb_spec y z) as [Hlt | Hge].
    + constructor; [assumption |].
      constructor; [assumption |].
      rewrite List.Forall_forall in *. intros w Hw.
      specialize (Hall w Hw). lia.
    + destruct (Z.eqb_spec y z) as [-> | Hne]; [assumption |].
      constructor; [auto |].
      rewrite List.Forall_forall in *. intros w Hw.
      apply insert_unique_In in Hw as [-> | Hw]; [lia | auto].
Qed.

Lemma sorted_lt_NoDup (l : list Z) : StronglySorted Z.lt l -> List.NoDup l.
Proof.
  induction 1 as [| z t Ht IH Hall]; constructor; [| assumption].
  intros Hin. rewrite List.Forall_forall in Hall.
  specialize (Hall z Hin). lia.
Qed.

Lemma unique_In (x : Z) (data : list Z) :
  List.In x (Np.unique data) <-> List.In x data.
Proof.
  induction data as [| y t IH]; simpl; [reflexivity |].
  rewrite insert_unique_In, IH. intuition.
Qed.

Lemma unique_sorted (data : list Z) : StronglySorted Z.lt (Np.unique data).
Proof.
  induction data as [| y t IH]; simpl.
  - constructor.
  - now apply insert_unique_sorted.
Qed.

Lemma unique_NoDup (data : list Z) : List.NoDup (Np.unique data).
Proof. apply sorted_lt_NoDup, unique_sorted. Qed.

Lemma nonzero_labels_In (x : Z) (data : list Z) :
  List.In x (nonzero_labels data) <-> List.In x data /\ x <> 0%Z.
Proof.
  unfold nonzero_labels. rewrite unique_In, List.filter_In.
  destruct (Z.eqb_spec x 0%Z); simpl; intuition congruence.
Qed.

(** With a background voxel the distinct values are the background and
    the regions. *)
Lemma unique_length_background (data : list Z) :
  List.In 0%Z data ->
  List.length (Np.unique data) = S (List.length (nonzero_labels data)).
Proof.
  intros H0.
  change (S (List.length (nonzero_labels data)))
    with (List.length (0%Z :: nonzero_labels data)).
  apply Permutation.Permutation_length, Permutation.NoDup_Permutation.
  - apply unique_NoDup.
  - constructor; [| apply unique_NoDup].
    rewrite nonzero_labels_In. intuition.
  - intros x. rewrite unique_In. simpl. rewrite nonzero_labels_In.
    split.
    + intros Hx. destruct (Z.eq_dec x 0%Z) as [-> | Hne]; [now left | right; auto].
    + intros [<- | [Hx _]]; assumption.
Qed.

(** Without one they are the regions alone. *)
Lemma unique_length_no_background (data : list Z) :
  ~ List.In 0%Z data -> Np.unique data = nonzero_labels data.
Proof.
  intros H0. unfold nonzero_labels. f_equal.
  induction data as [| y t IH]; simpl; [reflexivity |].
  destruct (Z.eqb_spec y 0%Z) as [-> | Hne]; simpl.
  - exfalso. apply H0. now left.
  - f_equal. apply IH. intros Hin. apply H0. now right.
Qed.

(** The selector on a mask that has a background voxel: no region is an
    error, one region a [NiftiMasker], more a [NiftiLabelsMasker]. *)
Lemma set_masker_with_background
    (mask_img : Nifti1Image (list Z)) (kwargs : gmap string value) :
  List.In 0%Z (get_data mask_img) ->
  let k := List.length (nonzero_labels (get_data mask_img)) in
  (k = 0 -> _set_masker mask_img kwargs =
              Err (ValueError "No ROI detected; check ROI file"))
  /\ (k = 1 -> _set_masker mask_img kwargs = Ok (NiftiMasker mask_img kwargs))
  /\ (2 <= k ->
      _set_masker mask_img kwargs = Ok (NiftiLabelsMasker mask_img kwargs)).
Proof.
  intros H0 k. unfold _set_masker.
  rewrite (unique_length_background _ H0). fold k.
  repeat split; intros Hk.
  - rewrite Hk. reflexivity.
  - rewrite Hk. reflexivity.
  - destruct (Nat.ltb_spec 2 (S k)); [reflexivity | lia].
Qed.

(** The selector on a mask that has none counts one region less than
    there are. *)
Lemma set_masker_without_background
    (mask_img : Nifti1Image (list Z)) (kwargs : gmap string value) :
  ~ List.In 0%Z (get_data mask_img) ->
  let k := List.length (nonzero_labels (get_data mask_img)) in
  (k <= 1 -> _set_masker mask_img kwargs =
               Err (ValueError "No ROI detected; check ROI file"))
  /\ (k = 2 -> _set_masker mask_img kwargs = Ok (NiftiMasker mask_img kwargs))
  /\ (3 <= k ->
      _set_masker mask_img kwargs = Ok (NiftiLabelsMasker mask_img kwargs)).
Proof.
  intros H0 k. unfold _set_masker.
  rewrite (unique_length_no_background _ H0). fold k.
  repeat split; intros Hk.
  - destruct (Nat.ltb_spec 2 k); [lia |].
    destruct (Nat.eqb_spec k 2); [lia | reflexivity].
  - rewrite Hk. reflexivity.
  - destruct (Nat.ltb_spec 2 k); [reflexivity | lia].
Qed.

(** C1 at masks without a background voxel.  A mask whose voxels are all
    1 has exactly one distinct non-zero value, and the selector raises "No
    ROI detected"; a mask of the values 1 and 2 has two, and the selector
    builds the binary-region masker. *)
Theorem set_masker_counts_values_not_regions (kwargs : gmap string value) :
  nonzero_labels (get_data Toy.all_ones) = [1%Z]
  /\ _set_masker Toy.all_ones kwargs =
       Err (ValueError "No ROI detected; check ROI file")
  /\ nonzero_labels (get_data Toy.two_labels_no_background) = [1%Z; 2%Z]
  /\ _set_masker Toy.two_labels_no_background kwargs =
       Ok (NiftiMasker Toy.two_labels_no_background kwargs).
Proof. repeat split. Qed.

(* ===================================================================== *)
(** ** Properties: column positions and selection *)
(* ===================================================================== *)

Lemma length_index_where (p : string -> bool) (off : nat) (l : list string) :
  List.length (index_where p off l) = List.length (List.filter p l).
Proof.
  revert off. induction l as [| c t IH]; intros off; simpl; [reflexivity |].
  destruct (p c); simpl; now rewrite IH.
Qed.

Lemma index_where_none (p : string -> bool) (off : nat) (l : list string) :
  (forall c, List.In c l -> p c = false) -> index_where p off l = [].
Proof.
  revert off. induction l as [| c t IH]; intros off Hp; simpl; [reflexivity |].
  rewrite (Hp c) by now left. simpl. apply IH.
  intros c' Hc'. apply Hp. now right.
Qed.

Lemma index_where_ext (p q : string -> bool) (off : nat) (l : list string) :
  (forall c, List.In c l -> p c = q c) ->
  index_where p off l = index_where q off l.
Proof.
  revert off. induction l as [| c t IH]; intros off Hpq; simpl; [reflexivity |].
  rewrite (Hpq c) by now left. f_equal. apply IH.
  intros c' Hc'. apply Hpq. now right.
Qed.

(** The positions found are the positions of the list, filtered, in
    increasing order. *)
Lemma index_where_as_filter (p : string -> bool) (off : nat)
    (l : list string) :
  index_where p off l =
    List.filter (fun j => p (nth (j - off) l EmptyString))
                (seq off (List.length l)).
Proof.
  revert off. induction l as [| c t IH]; intros off; simpl; [reflexivity |].
  rewrite Nat.sub_diag. rewrite IH.
  assert (E : List.filter (fun j => p (nth (j - S off) t EmptyString))
                (seq (S off) (List.length t)) =
              List.filter
                (fun j => p match (j - off)%nat with
                            | O => c
                            | S m => nth m t EmptyString
                            end)
                (seq (S off) (List.length t))).
  { apply List.filter_ext_in. intros j Hj. apply List.in_seq in Hj.
    replace (j - off)%nat with (S (j - S off)) by lia. reflexivity. }
  rewrite E. destruct (p c); reflexivity.
Qed.

Lemma names_at_index_where (p : string -> bool) (off : nat)
    (l : list string) :
  map (fun j => nth (j - off) l EmptyString) (index_where p off l) =
    List.filter p l.
Proof.
  revert off. induction l as [| c t IH]; intros off; simpl; [reflexivity |].
  rewrite List.map_app.
  assert (E : map (fun j => match (j - off)%nat with
                            | O => c
                            | S m => nth m t EmptyString
                            end) (index_where p (S off) t) =
              map (fun j => nth (j - S off) t EmptyString)
                  (index_where p (S off) t)).
  { apply List.map_ext_in. intros j Hj.
    rewrite index_where_as_filter in Hj.
    apply List.filter_In in Hj as [Hj _]. apply List.in_seq in Hj.
    replace (j - off)%nat with (S (j - S off)) by lia. reflexivity. }
  rewrite E, IH. destruct (p c); simpl; [| reflexivity].
  now rewrite Nat.sub_diag.
Qed.

Lemma index_where_found (nm : string) (off : nat) (l : list string) :
  List.In nm l -> index_where (String.eqb nm) off l <> [].
Proof.
  revert off. induction l as [| c t IH]; intros off Hin; simpl; [contradiction |].
  destruct (String.eqb_spec nm c) as [-> | Hne]; simpl; [discriminate |].
  destruct Hin as [-> | Hin]; [contradiction |]. now apply IH.
Qed.

(** When the labels that satisfy [p] are pairwise distinct, selecting them
    by name finds each of them once, where it stands. *)
Lemma flat_map_index_where (p : string -> bool) (off : nat)
    (l : list string) :
  List.NoDup (List.filter p l) ->
  flat_map (fun nm => index_where (String.eqb nm) off l) (List.filter p l) =
    index_where p off l.
Proof.
  revert off. induction l as [| c t IH]; intros off Hnd; simpl; [reflexivity |].
  assert (Hskip : forall names,
            (forall nm, List.In nm names -> nm <> c) ->
            flat_map (fun nm => index_where (String.eqb nm) off (c :: t)) names =
            flat_map (fun nm => index_where (String.eqb nm) (S off) t) names).
  { induction names as [| nm names IHn]; intros Hn; [reflexivity |].
    cbn [flat_map]. rewrite IHn by (intros nm' Hnm'; apply Hn; now right).
    f_equal. simpl.
    destruct (String.eqb_spec nm c) as [-> | _]; [| reflexivity].
    exfalso. apply (Hn c); [now left | reflexivity]. }
  simpl in Hnd. destruct (p c) eqn:Hpc.
  - inversion Hnd as [| ? ? Hnotin Hnd']; subst.
    simpl. rewrite String.eqb_refl. simpl.
    rewrite index_where_none.
    + simpl. rewrite Hskip.
      * now rewrite IH.
      * intros nm Hnm ->. contradiction.
    + intros c' Hc'. apply String.eqb_neq. intros <-.
      apply Hnotin. apply List.filter_In. now split.
  - rewrite Hskip.
    + now rewrite IH.
    + intros nm Hnm ->. apply List.filter_In in Hnm as [_ Hp]. congruence.
Qed.

Lemma locate_all_found (cols names : list string) :
  (forall nm, List.In nm names -> List.In nm cols) ->
  locate cols names =
    Ok (flat_map (fun nm => index_where (String.eqb nm) 0 cols) names).
Proof.
  induction names as [| nm rest IH]; intros Hin; simpl; [reflexivity |].
  pose proof (index_where_found nm 0 cols (Hin nm (or_introl eq_refl))) as Hne.
  destruct (index_where (String.eqb nm) 0 cols) as [| j js] eqn:E;
    [contradiction |].
  rewrite IH by (intros nm' Hnm'; apply Hin; now right).
  reflexivity.
Qed.

Lemma locate_filter (p : string -> bool) (cols : list string) :
  List.NoDup (List.filter p cols) ->
  locate cols (List.filter p cols) = Ok (index_where p 0 cols).
Proof.
  intros Hnd. rewrite locate_all_found.
  - now rewrite flat_map_index_where.
  - intros nm Hnm. now apply List.filter_In in Hnm.
Qed.

Lemma index_where_positions (p : string -> bool) (l : list string) :
  index_where p 0 l =
    List.filter (fun j => p (nth j l EmptyString)) (seq 0 (List.length l)).
Proof.
  rewrite index_where_as_filter. apply List.filter_ext.
  intros j. now rewrite Nat.sub_0_r.
Qed.

Lemma names_at_positions (p : string -> bool) (l : list string) :
  map (fun j => nth j l EmptyString) (index_where p 0 l) = List.filter p l.
Proof.
  rewrite <- (names_at_index_where p 0 l). apply List.map_ext.
  intros j. now rewrite Nat.sub_0_r.
Qed.

(* ===================================================================== *)
(** ** Properties: arrays *)
(* ===================================================================== *)

Lemma nth_map_lt {A B} (f : A -> B) (l : list A) (k : nat) (d : A) (d' : B) :
  k < List.length l -> nth k (map f l) d' = f (nth k l d).
Proof.
  revert k. induction l as [| a t IH]; intros k Hk; simpl in *; [lia |].
  destruct k as [| k]; [reflexivity |]. apply IH. lia.
Qed.

Lemma map_nth_seq {A} (l : list A) (d : A) :
  map (fun i => nth i l d) (seq 0 (List.length l)) = l.
Proof.
  induction l as [| a t IH]; simpl; [reflexivity |].
  f_equal. rewrite <- List.seq_shift, List.map_map. exact IH.
Qed.

Lemma length_interior (h : Q) (xs : list Q) :
  List.length (interior h xs) = (List.length xs - 2)%nat.
Proof.
  induction xs as [| a t IH]; [reflexivity |].
  destruct t as [| b [| c t']]; [reflexivity | reflexivity |].
  change (interior h (a :: b :: c :: t'))
    with (((c - a) / (2 * h))%Q :: interior h (b :: c :: t')).
  simpl List.length in *. rewrite IH. lia.
Qed.

Lemma length_gradient_1d (h : Q) (xs : list Q) :
  2 <= List.length xs -> List.length (gradient_1d h xs) = List.length xs.
Proof.
  intros Hlen. destruct xs as [| x0 [| x1 t]]; simpl in Hlen; try lia.
  unfold gradient_1d. cbn [List.length].
  rewrite List.length_app, length_interior. cbn [List.length]. lia.
Qed.

(** An interior entry of the gradient is the central difference of its two
    neighbours. *)
Lemma interior_nth (h : Q) (xs : list Q) (i : nat) :
  S (S i) < List.length xs ->
  nth i (interior h xs) 0%Q =
    ((nth (S (S i)) xs 0 - nth i xs 0) / (2 * h))%Q.
Proof.
  revert i. induction xs as [| a t IH]; intros i Hi; [simpl in Hi; lia |].
  destruct t as [| b [| c t']]; [simpl in Hi; lia | simpl in Hi; lia |].
  change (interior h (a :: b :: c :: t'))
    with (((c - a) / (2 * h))%Q :: interior h (b :: c :: t')).
  destruct i as [| i]; [reflexivity |].
  change (nth (S i) (_ :: interior h (b :: c :: t')) 0%Q)
    with (nth i (interior h (b :: c :: t')) 0%Q).
  rewrite IH by (simpl in *; lia). reflexivity.
Qed.

Lemma gradient_1d_interior (h : Q) (xs : list Q) (i : nat) :
  0 < i -> S i < List.length xs ->
  nth i (gradient_1d h xs) 0%Q =
    ((nth (S i) xs 0 - nth (i - 1) xs 0) / (2 * h))%Q.
Proof.
  intros Hpos Hi. destruct xs as [| x0 [| x1 t]]; simpl in Hi; try lia.
  unfold gradient_1d. destruct i as [| i]; [lia |].
  change (nth (S i) (?a :: ?l) 0%Q) with (nth i l 0%Q).
  rewrite List.app_nth1 by (rewrite length_interior; simpl; lia).
  rewrite interior_nth by (simpl; lia).
  now rewrite Nat.sub_1_r.
Qed.

Lemma gradient_1d_first (h x0 x1 : Q) (t : list Q) :
  nth 0 (gradient_1d h (x0 :: x1 :: t)) 0%Q = ((x1 - x0) / h)%Q.
Proof. reflexivity. Qed.

Lemma column_of_columns (n k : nat) (cs : list (list Q)) :
  k < List.length cs ->
  List.Forall (fun c => List.length c = n) cs ->
  column k (of_columns n cs) = nth k cs [].
Proof.
  intros Hk Hall. unfold column, of_columns. simpl.
  rewrite List.map_map.
  assert (Hn : List.length (nth k cs []) = n).
  { rewrite List.Forall_forall in Hall. apply Hall. now apply List.nth_In. }
  etransitivity; [| apply (map_nth_seq (nth k cs []) 0%Q)].
  rewrite Hn. apply List.map_ext. intros i.
  now rewrite (nth_map_lt _ cs k [] 0%Q).
Qed.

Lemma nth_columns_of (m : ndarray2) (k : nat) :
  k < n_cols m -> nth k (columns_of m) [] = column k m.
Proof.
  intros Hk. unfold columns_of.
  rewrite (nth_map_lt _ _ k 0%nat []) by now rewrite List.length_seq.
  now rewrite List.seq_nth.
Qed.

Lemma column_take_columns (idx : list nat) (df : DataFrame) (k : nat) :
  k < List.length idx ->
  column k (values (take_columns idx df)) =
    column (nth k idx 0%nat) (values df).
Proof.
  intros Hk. unfold column, take_columns. simpl.
  rewrite List.map_map. apply List.map_ext. intros r.
  now rewrite (nth_map_lt _ idx k 0%nat 0%Q).
Qed.

Lemma length_zip_rows (ra rb : list (list Q)) :
  List.length ra = List.length rb ->
  List.length (zip_rows ra rb) = List.length ra.
Proof.
  revert rb. induction ra as [| x ra IH]; intros [| y rb] Hlen;
    simpl in *; try lia.
  f_equal. apply IH. lia.
Qed.

Lemma zip_rows_left (w j : nat) (ra rb : list (list Q)) :
  List.Forall (fun r => List.length r = w) ra ->
  List.length ra = List.length rb ->
  j < w ->
  map (fun r => nth j r 0%Q) (zip_rows ra rb) = map (fun r => nth j r 0%Q) ra.
Proof.
  intros Hw. revert rb. induction Hw as [| x ra Hx Hra IH];
    intros [| y rb] Hlen Hj; simpl in *; try lia; [reflexivity |].
  rewrite List.app_nth1 by lia. f_equal. apply IH; [lia | assumption].
Qed.

Lemma zip_rows_right (w k : nat) (ra rb : list (list Q)) :
  List.Forall (fun r => List.length r = w) ra ->
  List.length ra = List.length rb ->
  map (fun r => nth (w + k) r 0%Q) (zip_rows ra rb) =
    map (fun r => nth k r 0%Q) rb.
Proof.
  intros Hw. revert rb. induction Hw as [| x ra Hx Hra IH];
    intros [| y rb] Hlen; simpl in *; try lia; [reflexivity |].
  rewrite List.app_nth2 by lia.
  replace (w + k - List.length x)%nat with k by lia.
  f_equal. apply IH. lia.
Qed.

(* ===================================================================== *)
(** ** Properties: the confound builder *)
(* ===================================================================== *)

Lemma last_difference_nth (h : Q) (xs : list Q) :
  2 <= List.length xs ->
  last_difference h xs =
    ((nth (List.length xs - 1) xs 0 - nth (List.length xs - 2) xs 0) / h)%Q.
Proof.
  induction xs as [| a t IH]; intros Hlen; [simpl in Hlen; lia |].
  destruct t as [| b [| c t']]; [simpl in Hlen; lia | reflexivity |].
  change (last_difference h (a :: b :: c :: t'))
    with (last_difference h (b :: c :: t')).
  rewrite IH by (simpl; lia).
  change (List.length (a :: b :: c :: t'))
    with (S (List.length (b :: c :: t'))).
  change (List.length (b :: c :: t')) with (S (S (List.length t'))).
  replace (S (S (S (List.length t'))) - 1)%nat
    with (S (S (S (List.length t')) - 1)) by lia.
  replace (S (S (S (List.length t'))) - 2)%nat
    with (S (S (S (List.length t')) - 2)) by lia.
  reflexivity.
Qed.

Lemma gradient_1d_last (h : Q) (xs : list Q) :
  2 <= List.length xs ->
  nth (List.length xs - 1) (gradient_1d h xs) 0%Q =
    ((nth (List.length xs - 1) xs 0 - nth (List.length xs - 2) xs 0) / h)%Q.
Proof.
  intros Hlen. rewrite <- last_difference_nth by exact Hlen.
  destruct xs as [| x0 [| x1 t]]; simpl in Hlen; try lia.
  unfold gradient_1d.
  change (List.length (x0 :: x1 :: t) - 1)%nat
    with (S (List.length t) - 0)%nat.
  rewrite Nat.sub_0_r.
  change (nth (S (List.length t)) (?a :: ?l) 0%Q)
    with (nth (List.length t) l 0%Q).
  rewrite List.app_nth2 by (rewrite length_interior; simpl; lia).
  rewrite length_interior.
  replace (List.length t - (List.length (x0 :: x1 :: t) - 2))%nat with 0%nat
    by (simpl; lia).
  reflexivity.
Qed.

(** The gradient of a column of at least two samples, entry by entry. *)
Lemma gradient_1d_entries (h : Q) (xs : list Q) :
  2 <= List.length xs ->
  let n := List.length xs in
  let d := gradient_1d h xs in
  List.length d = n
  /\ nth 0 d 0%Q = ((nth 1 xs 0 - nth 0 xs 0) / h)%Q
  /\ (forall i, 0 < i -> S i < n ->
        nth i d 0%Q = ((nth (S i) xs 0 - nth (i - 1) xs 0) / (2 * h))%Q)
  /\ nth (n - 1) d 0%Q = ((nth (n - 1) xs 0 - nth (n - 2) xs 0) / h)%Q.
Proof.
  intros Hlen n d. split; [now apply length_gradient_1d |].
  split; [| split].
  - destruct xs as [| x0 [| x1 t]]; simpl in Hlen; try lia. reflexivity.
  - intros i Hpos Hi. now apply gradient_1d_interior.
  - now apply gradient_1d_last.
Qed.

(** C5, amended.  On a selection of [n] rows, [n] at least two, whose
    rotation- and translation-named columns carry distinct names, with a
    numeric spacing [h] other than zero, the derivative step returns the
    selected columns unchanged and, to their right, one column per selected
    column whose name contains [rot] or [trans], in the order of those
    columns ([src] lists their positions); no other column gets a
    derivative.  The name of a new column is the source name with the
    suffix [_d].  Its values are the differences of the source column [x]
    over the spacing, as [np.gradient] takes them: [(x[1] - x[0]) / h] at
    the first row, the central difference [(x[i+1] - x[i-1]) / (2 h)] at
    every row between, and [(x[n-1] - x[n-2]) / h] at the last row. *)
Theorem compute_realign_derivs_appends_gradients
    (regressors : DataFrame) (t_r : value) (h : Q) :
  wf_frame regressors ->
  2 <= n_rows (values regressors) ->
  List.NoDup (List.filter is_realign (columns regressors)) ->
  as_number t_r = Some h ->
  ~ (h == 0)%Q ->
  let cols := columns regressors in
  let n := n_rows (values regressors) in
  let src :=
    List.filter (fun j => is_realign (nth j cols EmptyString))
                (seq 0 (List.length cols)) in
  exists out,
    _compute_realign_derivs regressors t_r = Ok out
    /\ columns out =
         cols ++ map (fun j => (nth j cols EmptyString ++ "_d")%string) src
    /\ n_rows (values out) = n
    /\ n_cols (values out) = List.length cols + List.length src
    /\ (forall j, j < List.length cols ->
          column j (values out) = column j (values regressors))
    /\ (forall k j, nth_error src k = Some j ->
          let x := column j (values regressors) in
          let d := column (List.length cols + k) (values out) in
          List.length d = n
          /\ (nth 0 d 0 == (nth 1 x 0 - nth 0 x 0) / h)%Q
          /\ (forall i, 0 < i -> S i < n ->
                (nth i d 0 == (nth (S i) x 0 - nth (i - 1) x 0) / (2 * h))%Q)
          /\ (nth (n - 1) d 0 ==
                (nth (n - 1) x 0 - nth (n - 2) x 0) / h)%Q).
Proof.
  intros [Hlen Hwf] Hrows Hnd Hnum _ cols n src.
  assert (Hsrc : index_where is_realign 0 cols = src)
    by apply index_where_positions.
  set (realign := values (take_columns src regressors)).
  set (cs := map (gradient_1d h) (columns_of realign)).
  set (derivs := of_columns (n_rows realign) cs).
  set (deriv_cols :=
         map (fun i => (i ++ "_d")%string) (List.filter is_realign cols)).
  assert (Hn : n_rows realign = n_rows (values regressors)).
  { unfold realign, n_rows, take_columns. simpl. apply List.length_map. }
  assert (Hcs : List.length cs = List.length src).
  { unfold cs, columns_of. rewrite !List.length_map, List.length_seq.
    reflexivity. }
  assert (Hrun : _compute_realign_derivs regressors t_r =
            Ok (concat_axis1 regressors
                  {| columns := deriv_cols; values := derivs |})).
  { unfold _compute_realign_derivs. cbn [select].
    fold cols. rewrite (locate_filter is_realign cols Hnd), Hsrc.
    cbn [fmap result_fmap mbind result_bind Py.bind]. fold realign.
    unfold Np.gradient. rewrite Hn.
    destruct (Nat.ltb_spec (n_rows (values regressors)) 2) as [Hlt | _];
      [lia |].
    rewrite Hnum. cbn [mbind result_bind Py.bind]. rewrite <- Hn.
    fold cs derivs deriv_cols.
    unfold DataFrame_new. cbn [as_2d]. unfold derivs at 1. cbn [n_cols of_columns].
    unfold deriv_cols at 1. rewrite List.length_map, Hcs, <- Hsrc, length_index_where.
    rewrite Nat.eqb_refl. reflexivity. }
  assert (Hrd : List.length (rows derivs) = List.length (rows (values regressors))).
  { unfold derivs, of_columns. cbn [rows].
    rewrite List.length_map, List.length_seq. exact Hn. }
  exists (concat_axis1 regressors
            {| columns := deriv_cols; values := derivs |}).
  split; [exact Hrun |]. cbn [concat_axis1 columns values n_cols rows].
  split; [| split; [| split; [| split]]].
  - fold cols. f_equal. unfold deriv_cols.
    rewrite <- (names_at_positions is_realign cols), Hsrc, List.map_map.
    reflexivity.
  - unfold n_rows. cbn [rows]. now apply length_zip_rows.
  - unfold derivs. cbn [n_cols of_columns]. fold cols in Hlen. lia.
  - intros j Hj. unfold column. cbn [rows].
    apply (zip_rows_left (n_cols (values regressors))); auto.
    fold cols in Hlen. lia.
  - intros k j Hk.
    set (x := column j (values regressors)).
    match goal with
    | |- context [column (?a + k) ?v] => set (d := column (a + k) v)
    end.
    assert (Hd : d = gradient_1d h x).
    { unfold d, x. unfold column at 1. cbn [rows].
      fold cols in Hlen. rewrite Hlen.
      rewrite (zip_rows_right (n_cols (values regressors))); auto.
      assert (Hklt : k < List.length src).
      { apply List.nth_error_Some. congruence. }
      change (map (fun r => nth k r 0%Q) (rows derivs)) with (column k derivs).
      unfold derivs. rewrite column_of_columns.
      + unfold cs.
        change (@nil Q) with (gradient_1d h []) at 1.
        rewrite List.map_nth. rewrite nth_columns_of by exact Hklt.
        unfold realign. rewrite column_take_columns by exact Hklt.
        now rewrite (List.nth_error_nth _ _ _ Hk).
      + now rewrite Hcs.
      + unfold cs. rewrite List.Forall_forall. intros c Hc.
        apply List.in_map_iff in Hc as (c0 & <- & Hc0).
        unfold columns_of in Hc0.
        apply List.in_map_iff in Hc0 as (j0 & <- & _).
        rewrite length_gradient_1d; unfold column; rewrite List.length_map;
          fold (n_rows realign); [reflexivity | lia]. }
    assert (Hx : List.length x = n)
      by (unfold x, column; apply List.length_map).
    destruct (gradient_1d_entries h x) as (H1 & H2 & H3 & H4);
      [rewrite Hx; exact Hrows |].
    rewrite Hx in H1, H3, H4. rewrite Hd.
    split; [exact H1 |]. split; [now rewrite H2 |].
    split; [intros i Hpos Hi; now rewrite H3 | now rewrite H4].
Qed.

Lemma compute_realign_derivs_appends_gradients_witness :
  exists out,
    _compute_realign_derivs Toy.confound_table (VFloat 2) = Ok out
    /\ columns out = ["rot_x"; "trans_y"; "other"; "rot_x_d"; "trans_y_d"]
    /\ column 0 (values out) = [1; 2; 4]%Q
    /\ Forall2 Qeq (column 3 (values out)) [1 # 2; 3 # 4; 1]%Q
    /\ column 1 (values out) = [2; 4; 8]%Q
    /\ Forall2 Qeq (column 4 (values out)) [1; 3 # 2; 2]%Q.
Proof.
  destruct (compute_realign_derivs_appends_gradients
              Toy.confound_table (VFloat 2) 2%Q)
    as (out & Hrun & Hcols & _ & _ & Hkeep & Hd).
  - split; [reflexivity |]. repeat constructor.
  - vm_compute. lia.
  - vm_compute. repeat constructor; simpl; intuition discriminate.
  - reflexivity.
  - discriminate.
  - assert (Hentries : forall (d : list Q) (x0 x1 x2 : Q),
              List.length d = 3%nat ->
              (nth 0 d 0 == x0)%Q -> (nth 1 d 0 == x1)%Q ->
              (nth 2 d 0 == x2)%Q ->
              Forall2 Qeq d [x0; x1; x2]).
    { intros d x0 x1 x2 Hl H0 H1 H2.
      destruct d as [| a [| b [| c [| ? ?]]]]; try discriminate Hl.
      repeat constructor; assumption. }
    exists out. split; [exact Hrun |]. split; [exact Hcols |].
    split; [apply (Hkeep 0%nat); simpl; lia |].
    split; [| split; [apply (Hkeep 1%nat); simpl; lia |]].
    + destruct (Hd 0%nat 0%nat eq_refl) as (Hl & H0 & Hmid & Hlast).
      apply Hentries; [exact Hl | | |].
      * rewrite H0. reflexivity.
      * rewrite (Hmid 1%nat) by (vm_compute; lia). reflexivity.
      * etransitivity; [exact Hlast | reflexivity].
    + destruct (Hd 1%nat 1%nat eq_refl) as (Hl & H0 & Hmid & Hlast).
      apply Hentries; [exact Hl | | |].
      * rewrite H0. reflexivity.
      * rewrite (Hmid 1%nat) by (vm_compute; lia). reflexivity.
      * etransitivity; [exact Hlast | reflexivity].
Defined.

(** C5 read as stated fails: derivative columns are not appended on every
    selection.  On a table of a single row numpy has no gradient to take
    and raises; when a rotation column is selected twice, the selection by
    name finds four columns for the two names, and the table constructor
    raises on the two derivative labels.  Nothing is returned in either
    case. *)
Lemma derivative_columns_need_two_rows_and_distinct_names :
  (_compute_realign_derivs Toy.one_row_table (VFloat 2) =
     Err (ValueError
       "Shape of array too small to calculate a numerical gradient, at least (edge_order + 1) elements are required.")
   /\ _build_regressors (fun _ => Ok Toy.one_row_table) "confounds.tsv"
        (Some ["rot_x"]) true (VFloat 2) =
        Err (ValueError
          "Shape of array too small to calculate a numerical gradient, at least (edge_order + 1) elements are required."))
  /\ _build_regressors Toy.read_csv "confounds.tsv"
       (Some ["rot_x"; "rot_x"]) true (VFloat 2) =
       Err (ValueError "Shape of passed values does not match the indices").
Proof. repeat split. Qed.

Section ConfoundBuilder.

Variable read_csv : string -> result DataFrame.

(** C8.  With derivative augmentation requested and no sample spacing the
    builder raises on every input, so no derivative column is computed;
    once the file is read and the selected columns are found, what it
    raises is the configuration error. *)
Theorem build_regressors_requires_t_r
    (fname : string) (regressor_names : option (list string))
    (all_regressors regressors : DataFrame) :
  read_csv fname = Ok all_regressors ->
  select all_regressors regressor_names = Ok regressors ->
  _build_regressors read_csv fname regressor_names true VNone =
    Err (ValueError "t_r not provided for realignment derivatives.")
  /\ (forall fname' names',
        raises (_build_regressors read_csv fname' names' true VNone)).
Proof.
  intros Hread Hsel. split.
  - unfold _build_regressors. rewrite Hread. cbn [mbind result_bind Py.bind].
    rewrite Hsel. reflexivity.
  - intros fname' names'. unfold _build_regressors, raises.
    destruct (read_csv fname') as [a | e]; cbn [mbind result_bind Py.bind];
      [| now exists e].
    destruct (select a names') as [r | e]; cbn [mbind result_bind Py.bind];
      [| now exists e].
    eexists. reflexivity.
Qed.

End ConfoundBuilder.

Lemma build_regressors_requires_t_r_witness :
  _build_regressors Toy.read_csv "confounds.tsv" (Some ["rot_x"; "other"])
    true VNone =
    Err (ValueError "t_r not provided for realignment derivatives.")
  /\ (forall fname' names',
        raises (_build_regressors Toy.read_csv fname' names' true VNone)).
Proof.
  apply (build_regressors_requires_t_r Toy.read_csv "confounds.tsv"
           (Some ["rot_x"; "other"]) Toy.confound_table
           (take_columns [0; 2]%nat Toy.confound_table)).
  - reflexivity.
  - reflexivity.
Defined.

(* ===================================================================== *)
(** ** Properties: the extraction step *)
(* ===================================================================== *)

Lemma length_list_ascii_of_string (s : string) :
  List.length (list_ascii_of_string s) = String.length s.
Proof. induction s as [| c s IH]; simpl; [reflexivity | now rewrite IH]. Qed.

Lemma length_iter_labels_OneStr (s : string) :
  List.length (iter_labels (OneStr s)) = String.length s.
Proof.
  unfold iter_labels. now rewrite List.length_map, length_list_ascii_of_string.
Qed.

Section Extraction.

Variable fit_transform :
  masker -> Nifti1Image ndarray4 -> option ndarray2 -> result ndarray2.
Variable labels_ : masker -> labels.

Variable m : masker.
Variable img : Nifti1Image ndarray4.
Variable confounds : option ndarray2.
Variable timeseries : ndarray2.
Hypothesis Hbinary : is_NiftiMasker m = true.
Hypothesis Hfit : fit_transform m img confounds = Ok timeseries.

(** Voxel output: the extracted matrix as it is, under the labels
    [voxel0], [voxel1], ... *)
Lemma mask_as_voxels (roi_labels : option labels) :
  _mask fit_transform labels_ m img confounds roi_labels true =
    Ok {| columns := map (fun i => ("voxel" ++ str_of_nat i)%string)
                         (seq 0 (n_cols timeseries));
          values := timeseries |}.
Proof.
  unfold _mask. rewrite Hfit. cbn [mbind result_bind Py.bind].
  rewrite Hbinary. unfold DataFrame_new. cbn [as_2d iter_labels].
  rewrite List.map_map, List.length_map, List.length_seq, Nat.eqb_refl.
  reflexivity.
Qed.

(** Region output: one column of row means, labelled [roi] by default. *)
Lemma mask_mean_default :
  _mask fit_transform labels_ m img confounds None false =
    Ok {| columns := ["roi"];
          values := {| n_cols := 1;
                       rows := map (fun r => [Np.mean r])
                                   (rows timeseries) |} |}.
Proof.
  unfold _mask. rewrite Hfit. cbn [mbind result_bind Py.bind].
  rewrite Hbinary. unfold DataFrame_new, mean_axis1. cbn.
  now rewrite List.map_map.
Qed.

(** Region output under a list that holds one label. *)
Lemma mask_mean_one_label (l : label) :
  _mask fit_transform labels_ m img confounds (Some (Labels [l])) false =
    Ok {| columns := [str l];
          values := {| n_cols := 1;
                       rows := map (fun r => [Np.mean r])
                                   (rows timeseries) |} |}.
Proof.
  unfold _mask. rewrite Hfit. cbn [mbind result_bind Py.bind].
  rewrite Hbinary. unfold DataFrame_new, mean_axis1. cbn.
  now rewrite List.map_map.
Qed.

(** C6 at a label given as a string.  The [labels] argument is documented
    as "str or list of str"; a string is iterated character by character,
    so a name of any length but one gives as many labels as it has
    characters for the single column of means, and the table constructor
    raises: the caller's label is not used. *)
Theorem mask_string_label_raises (s : string) :
  String.length s <> 1 ->
  _mask fit_transform labels_ m img confounds (Some (OneStr s)) false =
    Err (ValueError "Shape of passed values does not match the indices").
Proof.
  intros Hs. unfold _mask. rewrite Hfit. cbn [mbind result_bind Py.bind].
  rewrite Hbinary. unfold DataFrame_new. cbn [as_2d n_cols].
  rewrite List.length_map, length_iter_labels_OneStr.
  destruct (Nat.eqb_spec 1 (String.length s)) as [E | _]; [| reflexivity].
  congruence.
Qed.

End Extraction.

Lemma mask_string_label_raises_witness :
  _mask Toy.fit_transform Toy.labels_ (NiftiMasker Toy.binary_mask Toy.t_r_2)
        Toy.bold None (Some (OneStr "amygdala")) false =
    Err (ValueError "Shape of passed values does not match the indices").
Proof.
  apply (mask_string_label_raises Toy.fit_transform Toy.labels_
           (NiftiMasker Toy.binary_mask Toy.t_r_2) Toy.bold None
           {| n_cols := 2; rows := get_data Toy.bold |}).
  - reflexivity.
  - reflexivity.
  - simpl. lia.
Defined.

(* ===================================================================== *)
(** ** Properties: the written table *)
(* ===================================================================== *)

Lemma string_length_app (s1 s2 : string) :
  String.length (s1 ++ s2)%string = String.length s1 + String.length s2.
Proof.
  induction s1 as [| c s1 IH]; [reflexivity |].
  change (S (String.length (s1 ++ s2)%string) =
          S (String.length s1 + String.length s2)).
  now rewrite IH.
Qed.

Lemma string_app_assoc (s1 s2 s3 : string) :
  ((s1 ++ s2) ++ s3 = s1 ++ s2 ++ s3)%string.
Proof.
  induction s1 as [| c s1 IH]; [reflexivity |].
  change (String c ((s1 ++ s2) ++ s3) = String c (s1 ++ s2 ++ s3))%string.
  now rewrite IH.
Qed.

Lemma length_digits_fixed (w : nat) (n : N) :
  String.length (digits_fixed w n) = w.
Proof.
  revert n. induction w as [| w IH]; intros n; simpl; [reflexivity |].
  rewrite string_length_app, IH. simpl. lia.
Qed.

Lemma digits_value_app (s1 s2 : string) (acc : N) :
  digits_value (s1 ++ s2) acc =
    match digits_value s1 acc with
    | Some a => digits_value s2 a
    | None => None
    end.
Proof.
  revert acc. induction s1 as [| c s1 IH]; intros acc; [reflexivity |].
  change (String c s1 ++ s2)%string with (String c (s1 ++ s2)%string).
  cbn [digits_value].
  destruct ((48 <=? N_of_ascii c) && (N_of_ascii c <=? 57))%N;
    [apply IH | reflexivity].
Qed.

Lemma digits_value_digit (d acc : N) :
  (d < 10)%N ->
  digits_value (String (Py.digit d) EmptyString) acc = Some (10 * acc + d)%N.
Proof.
  intros Hd. cbn [digits_value]. unfold Py.digit.
  rewrite N_ascii_embedding by lia.
  destruct (N.leb_spec 48 (48 + d)) as [_ | H]; [| lia].
  destruct (N.leb_spec (48 + d) 57) as [_ | H]; [| lia].
  cbn [andb]. f_equal. lia.
Qed.

Lemma digits_value_digits_fixed (w : nat) (n acc : N) :
  digits_value (Py.digits_fixed w n) acc =
    Some (acc * 10 ^ N.of_nat w + n mod 10 ^ N.of_nat w)%N.
Proof.
  revert n acc. induction w as [| w IH]; intros n acc.
  - cbn [Py.digits_fixed digits_value]. f_equal.
    change (N.of_nat 0) with 0%N. rewrite N.pow_0_r, N.mod_1_r. lia.
  - cbn [Py.digits_fixed]. rewrite digits_value_app, IH.
    rewrite digits_value_digit by (apply N.mod_lt; lia).
    f_equal. rewrite Nat2N.inj_succ, N.pow_succ_r'.
    rewrite (N.Div0.mod_mul_r n 10 (10 ^ N.of_nat w)). lia.
Qed.

(** The rounding of ['%.8f']: nearest, and even when halfway. *)
Lemma round_half_even_nearest (a d : N) :
  (0 < d)%N ->
  let n := Py.round_half_even a d in
  (2 * Z.abs (Z.of_N a - Z.of_N n * Z.of_N d) <= Z.of_N d)%Z
  /\ ((2 * Z.abs (Z.of_N a - Z.of_N n * Z.of_N d) = Z.of_N d)%Z ->
      N.even n = true).
Proof.
  intros Hd n. unfold n, Py.round_half_even.
  pose proof (N.div_mod a d ltac:(lia)) as Hdm.
  pose proof (N.mod_lt a d ltac:(lia)) as Hlt.
  set (q := (a / d)%N) in *. set (r := (a mod d)%N) in *.
  destruct (N.ltb_spec d (2 * r)) as [Hgt | Hle]; cbn [orb].
  - split; [nia |]. intros Htie. exfalso. nia.
  - destruct (N.eqb_spec (2 * r) d) as [Heq | Hne]; cbn [andb].
    + destruct (N.odd q) eqn:Hodd.
      * split; [nia |]. intros _.
        rewrite N.add_1_r, N.even_succ. exact Hodd.
      * split; [nia |]. intros _.
        rewrite <- N.negb_odd, Hodd. reflexivity.
    + split; [nia |]. intros Htie. exfalso. apply Hne. nia.
Qed.

(** A value printed with ['%.<prec>f'] is formatted to [prec] decimal
    places. *)
Lemma format_percent_f_formatted (prec : nat) (q : Q) :
  0 < prec -> formatted_to prec q (Py.format_percent_f prec q).
Proof.
  intros Hp. unfold formatted_to, Py.format_percent_f.
  set (scale := (10 ^ N.of_nat prec)%N).
  set (n := Py.round_half_even (Z.abs_N (Qnum q) * scale) (N.pos (Qden q))).
  exists n, (Py.digits_fixed prec (n mod scale)).
  destruct (round_half_even_nearest (Z.abs_N (Qnum q) * scale)
              (N.pos (Qden q)) ltac:(lia)) as [Hnear Htie].
  fold n in Hnear, Htie.
  assert (Hscale : Z.of_N scale = (10 ^ Z.of_nat prec)%Z).
  { unfold scale. rewrite N2Z.inj_pow, nat_N_Z. reflexivity. }
  assert (Hnum : forall z : Z,
            Qabs (Qabs q * inject_Z (10 ^ Z.of_nat prec) - inject_Z z) =
              (Z.abs (Z.abs (Qnum q) * 10 ^ Z.of_nat prec * 1
                      + - z * Z.pos (Qden q * 1)) # (Qden q * 1 * 1))%Q).
  { intros z. destruct q as [a b]. reflexivity. }
  rewrite N2Z.inj_mul, N2Z.inj_abs_N, Hscale in Hnear, Htie.
  change (Z.of_N (N.pos (Qden q))) with (Z.pos (Qden q)) in Hnear, Htie.
  cbv zeta. rewrite Hnum.
  split; [| split; [| split; [| split]]].
  - unfold Qle. cbn [Qnum Qden]. rewrite !Pos.mul_1_r. lia.
  - intros Hhalf. apply Htie. unfold Qeq in Hhalf. cbn [Qnum Qden] in Hhalf.
    rewrite !Pos.mul_1_r in Hhalf. lia.
  - destruct prec as [| p]; [lia |].
    replace (Qle_bool 0 q) with (negb (Qnum q <? 0)%Z).
    + now destruct (Qnum q <? 0)%Z.
    + unfold Qle_bool. cbn [Qnum Qden].
      destruct (Z.ltb_spec (Qnum q) 0),
        (Z.leb_spec (0 * Z.pos (Qden q)) (Qnum q * 1));
        try reflexivity; lia.
  - apply length_digits_fixed.
  - rewrite digits_value_digits_fixed. fold scale. f_equal.
    rewrite N.Div0.mod_mod. lia.
Qed.

Lemma Forall2_map_right {A B} (R : A -> B -> Prop) (f : A -> B) (l : list A) :
  (forall a, R a (f a)) -> Forall2 R l (map f l).
Proof. intros H. induction l; constructor; auto. Qed.

Lemma render_rows_no_index (ff : float_format) (i : nat)
    (rs : list (list Q)) :
  render_rows ff false i rs = map (map (format_float ff)) rs.
Proof.
  revert i. induction rs as [| r rest IH]; intros i; simpl; [reflexivity |].
  now rewrite IH.
Qed.

Section Driver.

Variable nib_load : string -> result (Nifti1Image ndarray4).
Variable read_csv : string -> result DataFrame.
Variable fit_transform :
  masker -> Nifti1Image ndarray4 -> option ndarray2 -> result ndarray2.
Variable labels_ : masker -> labels.
Variable writable : string -> bool.

(** The header of an extracted table: the labels of the mode, each made
    a string by [str], as many as the table has columns. *)
Lemma mask_header (m : masker) (img : Nifti1Image ndarray4)
    (confounds : option ndarray2) (roi_labels : option labels)
    (as_voxels : bool) (data : DataFrame) :
  _mask fit_transform labels_ m img confounds roi_labels as_voxels = Ok data ->
  columns data =
    map str
      (iter_labels
         (if is_NiftiMasker m then
            if as_voxels then
              Labels (map (fun i => LStr ("voxel" ++ str_of_nat i)%string)
                          (seq 0 (n_cols (values data))))
            else match roi_labels with
                 | None => Labels [LStr "roi"]
                 | Some l => l
                 end
          else match roi_labels with
               | None => labels_ m
               | Some l => l
               end))
  /\ List.length (columns data) = n_cols (values data).
Proof.
  unfold _mask.
  destruct (fit_transform m img confounds) as [ts | e];
    cbn [mbind result_bind Py.bind]; [| discriminate].
  destruct (is_NiftiMasker m); [destruct as_voxels |];
    unfold DataFrame_new;
    match goal with
    | |- (if ?b then _ else _) = _ -> _ => destruct b eqn:E
    end; try discriminate;
    intros [= <-]; cbn [columns values n_cols as_2d] in *;
    (split; [reflexivity | symmetry; now apply Nat.eqb_eq]).
Qed.

(** C7, amended.  Once the image is loaded, the confounds built, the scans
    trimmed and the table extracted, the driver turns to the path made of
    the output directory and the text of the image's base name before its
    first dot followed by [_timeseries.tsv].  When that path cannot be
    opened for writing it raises [OSError] and writes nothing.  When it
    can, the driver writes one file there and nothing else: the delimiter
    is the tab character; the header holds the labels of the mode, an
    integer label as its decimal numeral and a string label as it is, one
    per column of the table and no field for a row index; every record
    holds one field per value of its row and no other, the value formatted
    to eight decimal places. *)
Theorem mask_and_save_writes_table
    (m : masker) (img_name output_dir : string)
    (regressor_file : option string) (regressor_names : option (list string))
    (realign_derivs : bool) (t_r : value) (as_voxels : bool)
    (labels : option labels) (discard_scans : option Z)
    (img img' : Nifti1Image ndarray4) (confounds confounds' : option ndarray2)
    (data : DataFrame) (fs : filesystem) :
  nib_load img_name = Ok img ->
  match regressor_file with
  | Some file =>
      Some <$> _build_regressors read_csv file regressor_names
                                 realign_derivs t_r
  | None => Ok None
  end = Ok confounds ->
  discard_block discard_scans img confounds = Ok (img', confounds') ->
  _mask fit_transform labels_ m img' confounds' labels as_voxels = Ok data ->
  let path :=
    Py.path_join output_dir
      (Py.before_first_dot (Py.basename img_name) ++ "_timeseries.tsv") in
  let run :=
    _mask_and_save nib_load read_csv fit_transform labels_ writable m
      img_name output_dir regressor_file regressor_names realign_derivs t_r
      as_voxels labels discard_scans in
  let used :=
    if is_NiftiMasker m then
      if as_voxels then
        Labels (map (fun i =>
                       LStr ("voxel"
                             ++ NilZero.string_of_uint (Nat.to_uint i)))
                    (seq 0 (n_cols (values data))))
      else match labels with
           | None => Labels [LStr "roi"]
           | Some l => l
           end
    else match labels with
         | None => labels_ m
         | Some l => l
         end in
  (writable path = false -> run fs = (fs, Err (OSError path)))
  /\ (writable path = true ->
      exists file : CsvFile,
        run fs = (<[path := file]> fs, Ok tt)
        /\ delimiter file = String "009"%char EmptyString
        /\ header file =
             map (fun l => match l with
                           | LInt z => NilZero.string_of_int (Z.to_int z)
                           | LStr s => s
                           end)
                 (iter_labels used)
        /\ List.length (header file) = n_cols (values data)
        /\ Forall2 (Forall2 (formatted_to 8))
                   (rows (values data)) (records file)).
Proof.
  intros Hload Hconf Htrim Hmask path run used.
  assert (Hrun : run fs =
            to_csv writable data path Py.tab false (PercentF 8) fs).
  { unfold run, _mask_and_save, mbind, io_mbind, io_bind, lift.
    rewrite Hload. cbn beta iota. rewrite Hconf. cbn beta iota.
    rewrite Htrim. cbn beta iota. rewrite Hmask. reflexivity. }
  rewrite Hrun. unfold to_csv. split; intros Hw; rewrite Hw; [reflexivity |].
  destruct (mask_header _ _ _ _ _ _ Hmask) as [Hcols Hwidth].
  exists (render data Py.tab false (PercentF 8)).
  split; [reflexivity |]. split; [reflexivity |].
  cbn [render header records app]. split; [exact Hcols |].
  split; [exact Hwidth |].
  rewrite render_rows_no_index.
  apply Forall2_map_right. intros r.
  apply Forall2_map_right. intros q.
  apply format_percent_f_formatted. lia.
Qed.

End Driver.

Lemma mask_and_save_writes_table_witness :
  _mask_and_save Toy.nib_load Toy.read_csv Toy.fit_transform Toy.labels_
      Toy.writable (NiftiLabelsMasker Toy.atlas Toy.t_r_2)
      "/data/run-3/sub-01_bold.nii.gz" "out" None None false (VFloat 2)
      false None None ∅ =
    ({[ "out/sub-01_bold_timeseries.tsv" :=
          {| delimiter := String "009"%char EmptyString;
             header := ["1"; "2"];
             records := [["0.33333333"; "-0.66666667"];
                         ["0.00195312"; "0.00585938"];
                         ["-0.00000000"; "2.50000000"]] |} ]},
     Ok tt)
  /\ Forall2 (Forall2 (formatted_to 8))
       [[1 # 3; - 2 # 3]; [1 # 512; 3 # 512]; [- 1 # 1000000000; 5 # 2]]%Q
       [["0.33333333"; "-0.66666667"];
        ["0.00195312"; "0.00585938"];
        ["-0.00000000"; "2.50000000"]]
  /\ _mask_and_save Toy.nib_load Toy.read_csv Toy.fit_transform Toy.labels_
         Toy.writable (NiftiLabelsMasker Toy.atlas Toy.t_r_2)
         "/data/run-3/sub-01_bold.nii.gz" "nodir" None None false (VFloat 2)
         false None None ∅ =
       (∅, Err (OSError "nodir/sub-01_bold_timeseries.tsv")).
Proof.
  pose proof (fun output_dir =>
    mask_and_save_writes_table Toy.nib_load Toy.read_csv Toy.fit_transform
      Toy.labels_ Toy.writable (NiftiLabelsMasker Toy.atlas Toy.t_r_2)
      "/data/run-3/sub-01_bold.nii.gz" output_dir None None false (VFloat 2)
      false None None Toy.fractions Toy.fractions None None
      {| columns := ["1"; "2"];
         values := {| n_cols := 2; rows := get_data Toy.fractions |} |}
      ∅ eq_refl eq_refl eq_refl eq_refl) as Hthm.
  destruct (Hthm "out") as [_ Hout]. destruct (Hthm "nodir") as [Hnodir _].
  destruct (Hout eq_refl) as (file & Hrun & _ & _ & _ & Hrecords).
  assert (Hfile : file =
            {| delimiter := String "009"%char EmptyString;
               header := ["1"; "2"];
               records := [["0.33333333"; "-0.66666667"];
                           ["0.00195312"; "0.00585938"];
                           ["-0.00000000"; "2.50000000"]] |}).
  { apply (f_equal (fun r => fst r !! "out/sub-01_bold_timeseries.tsv"))
      in Hrun.
    vm_compute in Hrun. now injection Hrun as <-. }
  subst file. split; [| split].
  - rewrite Hrun. reflexivity.
  - exact Hrecords.
  - exact (Hnodir eq_refl).
Defined.

(** C7 read as stated fails.  An image called [bold.run-2.nii] has the
    base name without extension [bold.run-2], but its table goes to
    [bold_timeseries.tsv], where the tables of [bold.nii.gz] and of every
    other [bold.*] go too, and no file carries the name the claim gives.
    And into an output directory that does not exist no table is written at
    all: the driver raises. *)
Lemma mask_and_save_cuts_name_at_first_dot :
  let run output_dir img_name :=
    _mask_and_save Toy.nib_load Toy.read_csv Toy.fit_transform Toy.labels_
      Toy.writable (NiftiLabelsMasker Toy.atlas Toy.t_r_2) img_name
      output_dir None None false (VFloat 2) false None None ∅ in
  (specified_output_path "out" "/data/bold.run-2.nii" =
     "out/bold.run-2_timeseries.tsv"
   /\ snd (run "out" "/data/bold.run-2.nii") = Ok tt
   /\ fst (run "out" "/data/bold.run-2.nii")
        !! "out/bold.run-2_timeseries.tsv" = None
   /\ fst (run "out" "/data/bold.run-2.nii") !! "out/bold_timeseries.tsv" =
        Some Toy.table_of_bold)
  /\ (specified_output_path "nodir" "/data/sub-01_bold.nii.gz" =
        "nodir/sub-01_bold_timeseries.tsv"
      /\ run "nodir" "/data/sub-01_bold.nii.gz" =
           (∅, Err (OSError "nodir/sub-01_bold_timeseries.tsv"))).
Proof. repeat split. Qed.

(* ===================================================================== *)
(** ** Properties: the worker pool *)
(* ===================================================================== *)

Lemma apply_writes_app (ws ws' : list (string * CsvFile)) (fs : filesystem) :
  apply_writes (ws ++ ws') fs = apply_writes ws' (apply_writes ws fs).
Proof. apply List.fold_left_app. Qed.

(** Writes to distinct paths can be carried out in any order. *)
Lemma apply_writes_Permutation (ws ws' : list (string * CsvFile)) :
  Permutation ws ws' ->
  List.NoDup (map fst ws) ->
  forall fs, apply_writes ws fs = apply_writes ws' fs.
Proof.
  induction 1 as [| x l l' Hp IH | x y l | l l' l'' Hp1 IH1 Hp2 IH2];
    intros Hnd fs.
  - reflexivity.
  - simpl in Hnd. inversion Hnd; subst. unfold apply_writes. simpl.
    now apply IH.
  - simpl in Hnd. inversion Hnd as [| ? ? Hy Hnd']; subst.
    unfold apply_writes. simpl. f_equal.
    apply insert_insert_ne. intros E. apply Hy. left. exact E.
  - rewrite IH1 by assumption. apply IH2.
    eapply Permutation.Permutation_NoDup; [| exact Hnd].
    now apply Permutation.Permutation_map.
Qed.

Lemma chunksize_pos (n p : nat) : 0 < n -> 0 < p -> 0 < Mp.chunksize n p.
Proof.
  intros Hn Hp. unfold Mp.chunksize.
  destruct (Nat.eqb_spec (n mod (4 * p)) 0) as [E | _]; [| lia].
  pose proof (Nat.div_mod_eq n (4 * p)) as Hd.
  destruct (n / (4 * p)) as [| q]; lia.
Qed.

Lemma concat_chunks_of {T} (fuel size : nat) (l : list T) :
  0 < size -> List.length l <= fuel ->
  concat (Mp.chunks_of fuel size l) = l.
Proof.
  intros Hs. revert l. induction fuel as [| fuel IH]; intros l Hl.
  - destruct l; [reflexivity | simpl in Hl; lia].
  - destruct l as [| a l']; [reflexivity |].
    cbn [Mp.chunks_of concat]. rewrite IH.
    + apply List.firstn_skipn.
    + rewrite List.length_skipn. simpl in *. lia.
Qed.

Lemma concat_insert_head {T} (chunks : list (list T)) (c : nat) (t : T)
    (rest : list T) :
  chunks !! c = Some (t :: rest) ->
  Permutation (concat chunks) (t :: concat (<[c := rest]> chunks)).
Proof.
  revert c. induction chunks as [| ch chs IH]; intros c Hc.
  - destruct c; discriminate.
  - destruct c as [| c]; simpl in *.
    + injection Hc as ->. reflexivity.
    + rewrite (IH c Hc).
      apply Permutation.Permutation_sym, Permutation.Permutation_middle.
Qed.

Section PoolFacts.

Context {T : Type}.
Variable f : T -> io unit.
Variable w : T -> string * CsvFile.

Lemma run_chunk_all_write (chunk : list T) (fs : filesystem)
    (failure : option exn) :
  all_write f w chunk ->
  Mp.run_chunk f chunk fs failure = (apply_writes (map w chunk) fs, failure).
Proof.
  revert fs. induction chunk as [| t rest IH]; intros fs Hall;
    [reflexivity |].
  cbn [Mp.run_chunk]. rewrite (Hall t (or_introl eq_refl) fs).
  rewrite IH by (intros t' Ht'; apply Hall; now right). reflexivity.
Qed.

Lemma drain_all_write (chunks : list (list T)) (fs : filesystem)
    (failure : option exn) :
  all_write f w (concat chunks) ->
  fold_left (fun acc chunk => Mp.run_chunk f chunk (fst acc) (snd acc))
            chunks (fs, failure) =
    (apply_writes (map w (concat chunks)) fs, failure).
Proof.
  revert fs. induction chunks as [| ch chs IH]; intros fs Hall;
    [reflexivity |].
  cbn [fold_left concat]. cbn [fst snd].
  rewrite run_chunk_all_write
    by (intros t Ht; apply Hall; simpl; apply List.in_or_app; now left).
  rewrite IH
    by (intros t Ht; apply Hall; simpl; apply List.in_or_app; now right).
  now rewrite List.map_app, apply_writes_app.
Qed.

Lemma pool_step_inv (args : list T) (fs0 : filesystem)
    (st : Mp.pool_state) (c : nat) :
  all_write f w args -> pool_inv w args fs0 st ->
  pool_inv w args fs0 (Mp.pool_step f st c).
Proof.
  intros Hall (Hfail & ran & Hfiles & Hperm). unfold Mp.pool_step.
  destruct (Mp.pending st !! c) as [[| t rest] |] eqn:Hc;
    try (split; [assumption | exists ran; now split]).
  pose proof (concat_insert_head _ _ _ _ Hc) as Hhead.
  assert (Ht : List.In t args).
  { eapply Permutation.Permutation_in; [exact Hperm |].
    apply List.in_or_app. right.
    eapply Permutation.Permutation_in;
      [apply Permutation.Permutation_sym, Hhead | now left]. }
  rewrite (Hall t Ht (Mp.files st)).
  split; [exact Hfail |]. exists (ran ++ [t]). cbn [Mp.files Mp.pending]. split.
  - rewrite List.map_app, apply_writes_app, <- Hfiles. reflexivity.
  - rewrite <- Hperm, <- List.app_assoc. apply Permutation.Permutation_app_head.
    simpl. now apply Permutation.Permutation_sym.
Qed.

Lemma run_schedule_inv (args : list T) (fs0 : filesystem)
    (sched : list nat) (st : Mp.pool_state) :
  all_write f w args -> pool_inv w args fs0 st ->
  pool_inv w args fs0 (Mp.run_schedule f sched st).
Proof.
  intros Hall. revert st. unfold Mp.run_schedule.
  induction sched as [| c sched IH]; intros st Hinv; [exact Hinv |].
  cbn [fold_left]. apply IH. now apply pool_step_inv.
Qed.

(** When every task writes its file, the pool returns without error under
    every schedule, and the files are the writes of all the tasks in some
    order. *)
Lemma starmap_all_write (sched : list nat) (processes : Z) (args : list T)
    (fs : filesystem) :
  (1 <= processes)%Z -> all_write f w args ->
  exists order,
    Permutation order args
    /\ Mp.starmap f sched processes args fs =
         (apply_writes (map w order) fs, Ok tt).
Proof.
  intros Hp Hall. unfold Mp.starmap.
  destruct (Z.ltb_spec processes 1) as [Hlt | _]; [lia |].
  set (st0 := {| Mp.pending := _; Mp.files := fs; Mp.failure := None |}).
  assert (Hinv0 : pool_inv w args fs st0).
  { split; [reflexivity |]. exists []. split; [reflexivity |].
    cbn [app Mp.pending st0].
    destruct args as [| a args']; [reflexivity |].
    rewrite concat_chunks_of; [reflexivity | | lia].
    apply chunksize_pos; [simpl; lia | lia]. }
  destruct (run_schedule_inv args fs sched st0 Hall Hinv0)
    as (Hfail & ran & Hfiles & Hperm).
  unfold Mp.drain. rewrite Hfail, Hfiles.
  rewrite drain_all_write.
  - exists (ran ++ concat (Mp.pending (Mp.run_schedule f sched st0))).
    split; [exact Hperm |].
    now rewrite List.map_app, apply_writes_app.
  - intros t Ht. apply Hall.
    eapply Permutation.Permutation_in; [exact Hperm |].
    apply List.in_or_app. now right.
Qed.

End PoolFacts.

(* ===================================================================== *)
(** ** Properties: the batch orchestrator *)
(* ===================================================================== *)

Lemma skipn_nil_nth_error {A} (k : nat) (l : list A) :
  skipn k l = [] -> nth_error l k = None.
Proof.
  intros E. apply List.nth_error_None.
  pose proof (List.length_skipn k l) as Hl. rewrite E in Hl. simpl in Hl. lia.
Qed.

Lemma skipn_cons_nth_error {A} (k : nat) (l : list A) (a : A) (tl : list A) :
  skipn k l = a :: tl -> nth_error l k = Some a /\ skipn (S k) l = tl.
Proof.
  revert l. induction k as [| k IH]; intros l E.
  - destruct l as [| b l']; [discriminate |]. simpl in E.
    injection E as -> ->. now split.
  - destruct l as [| b l']; [discriminate |]. simpl in E.
    apply IH in E. exact E.
Qed.

Lemma combine_map_fst_firstn {A B} (l : list A) (l' : list B) :
  map fst (combine l l') = firstn (List.length l') l.
Proof.
  revert l'. induction l as [| a l IH]; intros [| b l']; simpl;
    try reflexivity.
  all: try (now rewrite IH).
  all: now destruct (List.length l').
Qed.

Lemma for_each_cons {T} (body : T -> io unit) (x : T) (rest : list T)
    (fs : filesystem) :
  for_each body (x :: rest) fs =
    match body x fs with
    | (fs', Ok _) => for_each body rest fs'
    | (fs', Err e) => (fs', Err e)
    end.
Proof. reflexivity. Qed.

Lemma io_bind_lift_ok {A B} (a : A) (k : A -> io B) (fs : filesystem) :
  (lift (Ok a) ≫= k) fs = k a fs.
Proof. reflexivity. Qed.

Section Orchestrator.

Variable nib_load : string -> result (Nifti1Image ndarray4).
Variable load_img : string -> result (Nifti1Image (list Z)).
Variable read_csv : string -> result DataFrame.
Variable fit_transform :
  masker -> Nifti1Image ndarray4 -> option ndarray2 -> result ndarray2.
Variable labels_ : masker -> labels.
Variable writable : string -> bool.

Local Abbreviation driver :=
  (_mask_and_save nib_load read_csv fit_transform labels_ writable).
Local Abbreviation batch :=
  (make_timeseries nib_load load_img read_csv fit_transform labels_
                   writable).

Variable m : masker.
Variable output_dir : string.
Variable regressor_names : option (list string).
Variable realign_derivs as_voxels : bool.
Variable labels : option labels.
Variable discard_scans : option Z.

Local Abbreviation run t_r :=
  (task nib_load read_csv fit_transform labels_ writable m output_dir
        regressor_names realign_derivs t_r as_voxels labels discard_scans).

(** The sequential loop from index [k] on: it runs the images that have a
    confound entry, in order, and raises at the first that has none. *)
Lemma sequential_loop (w : string * option string -> string * CsvFile)
    (kwargs : gmap string value) (t_r : value) (rf : list (option string)) :
  kwargs !! "t_r" = Some t_r ->
  forall (inputs : list string) (k : nat) (fs : filesystem),
    all_write (run t_r) w (combine inputs (skipn k rf)) ->
    for_each
      (fun '(i, img) =>
         file ← lift (getitem rf i);
         t_r ← lift (dict_getitem kwargs "t_r");
         driver m img output_dir file regressor_names realign_derivs t_r
                as_voxels labels discard_scans)
      (combine (seq k (List.length inputs)) inputs) fs =
    (apply_writes (map w (combine inputs (skipn k rf))) fs,
     if (List.length inputs <=? List.length rf - k)%nat then Ok tt
     else Err (IndexError "list index out of range")).
Proof.
  intros Htr.
  set (body := fun '(i, img) =>
         file ← lift (getitem rf i);
         t_r ← lift (dict_getitem kwargs "t_r");
         driver m img output_dir file regressor_names realign_derivs t_r
                as_voxels labels discard_scans).
  induction inputs as [| img rest IH]; intros k fs Hall.
  - reflexivity.
  - cbn [List.length seq combine].
    rewrite for_each_cons.
    pose proof (List.length_skipn k rf) as Hl.
    destruct (skipn k rf) as [| file tl] eqn:Hk.
    + assert (Hbody : body (k, img) fs =
                (fs, Err (IndexError "list index out of range"))).
      { unfold body, mbind, io_mbind, io_bind, lift, getitem.
        now rewrite (skipn_nil_nth_error _ _ Hk). }
      rewrite Hbody. cbn [combine map]. simpl in Hl.
      destruct (Nat.leb_spec (S (List.length rest)) (List.length rf - k));
        [lia | reflexivity].
    + destruct (skipn_cons_nth_error _ _ _ _ Hk) as [Hnth Hk'].
      assert (Hbody : body (k, img) fs =
                (<[fst (w (img, file)) := snd (w (img, file))]> fs, Ok tt)).
      { unfold body, mbind, io_mbind, io_bind, lift, getitem, dict_getitem.
        rewrite Hnth, Htr.
        exact (Hall (img, file) (or_introl eq_refl) fs). }
      rewrite Hbody.
      rewrite IH by (rewrite Hk'; intros t Ht; apply Hall; now right).
      rewrite Hk'. cbn [combine map]. f_equal. simpl in Hl.
      destruct (Nat.leb_spec (List.length rest) (List.length rf - S k));
        destruct (Nat.leb_spec (S (List.length rest)) (List.length rf - k));
        try reflexivity; lia.
Qed.


(** C2 on the code.  Without a [t_r] entry among the masker options the
    batch raises [KeyError] and writes nothing, derivative augmentation
    off or not: the sequential loop looks the entry up for every image, the
    parallel branch when it builds the argument list. *)
Theorem batch_without_t_r_raises
    (sched : list nat) (input_files : list string) (mask : niimg_like)
    (mimg : Nifti1Image (list Z)) (kwargs : gmap string value)
    (regressor_files : option (list string)) (n_jobs : Z)
    (fs : filesystem) :
  load_niimg load_img mask = Ok mimg ->
  _set_masker mimg kwargs = Ok m ->
  kwargs !! "t_r" = None ->
  (n_jobs = 1%Z -> input_files <> [] /\ regressor_files <> Some []) ->
  batch sched input_files mask output_dir labels regressor_files
        regressor_names false as_voxels discard_scans n_jobs kwargs fs =
    (fs, Err (KeyError "t_r")).
Proof.
  intros Hload Hmasker Htr Hseq.
  unfold make_timeseries, mbind, io_mbind, io_bind, lift.
  rewrite Hload, Hmasker.
  destruct (Z.eqb_spec n_jobs 1) as [E | _].
  - destruct (Hseq E) as [Hin Hrf].
    destruct input_files as [| img rest]; [contradiction |].
    unfold enumerate. cbn [List.length seq combine]. rewrite for_each_cons.
    unfold getitem, dict_getitem. rewrite Htr.
    destruct regressor_files as [[| file files] |]; [contradiction | |];
      reflexivity.
  - unfold dict_getitem. rewrite Htr. reflexivity.
Qed.

(** C10.  With a confound list shorter than the image list (the masker
    built, [t_r] present, and the driver succeeding on every image that has
    a confound file): the tasks are the first [len(regressor_files)] images
    with their files; the sequential loop writes their tables in order and
    then raises [IndexError]; the pool, for every worker count above 1 and
    every schedule, writes the tables of the same tasks and returns without
    error. *)
Theorem short_confound_list_diverges
    (w : string * option string -> string * CsvFile)
    (sched : list nat) (input_files regs : list string) (mask : niimg_like)
    (mimg : Nifti1Image (list Z)) (kwargs : gmap string value) (t_r : value)
    (fs : filesystem) :
  load_niimg load_img mask = Ok mimg ->
  _set_masker mimg kwargs = Ok m ->
  kwargs !! "t_r" = Some t_r ->
  List.length regs < List.length input_files ->
  all_write (run t_r) w (combine input_files (map Some regs)) ->
  let paired := combine input_files (map Some regs) in
  map fst paired = firstn (List.length regs) input_files
  /\ batch sched input_files mask output_dir labels (Some regs)
           regressor_names realign_derivs as_voxels discard_scans 1 kwargs fs =
       (apply_writes (map w paired) fs,
        Err (IndexError "list index out of range"))
  /\ forall n_jobs, (1 < n_jobs)%Z ->
       exists order,
         Permutation order paired
         /\ batch sched input_files mask output_dir labels (Some regs)
                  regressor_names realign_derivs as_voxels discard_scans
                  n_jobs kwargs fs =
              (apply_writes (map w order) fs, Ok tt).
Proof.
  intros Hload Hmasker Htr Hshort Hall paired. split; [| split].
  - unfold paired. rewrite combine_map_fst_firstn. now rewrite List.length_map.
  - unfold make_timeseries.
    rewrite Hload, io_bind_lift_ok. cbn beta.
    rewrite Hmasker, io_bind_lift_ok. cbn beta.
    cbn [Z.eqb Pos.eqb]. unfold enumerate.
    rewrite (sequential_loop w kwargs t_r (map Some regs) Htr input_files 0 fs)
      by exact Hall.
    cbn [skipn]. fold paired. f_equal.
    rewrite List.length_map.
    destruct (Nat.leb_spec (List.length input_files) (List.length regs - 0));
      [lia | reflexivity].
  - intros n_jobs Hn.
    destruct (starmap_all_write (run t_r) w sched n_jobs paired fs)
      as (order & Hperm & Hrun); [lia | exact Hall |].
    exists order. split; [exact Hperm |].
    unfold make_timeseries, mbind, io_mbind, io_bind, lift.
    rewrite Hload, Hmasker.
    destruct (Z.eqb_spec n_jobs 1) as [E | _]; [lia |].
    unfold dict_getitem. rewrite Htr. exact Hrun.
Qed.

(** C9 where it holds.  With the masker built, [t_r] present, a confound
    entry for every image, the driver succeeding on every image, and the
    output paths pairwise distinct: the pool, for every worker count above
    1 and every schedule, and the sequential loop both return without
    error and leave the same files. *)
Theorem parallel_matches_sequential
    (w : string * option string -> string * CsvFile)
    (sched sched' : list nat) (input_files : list string)
    (mask : niimg_like) (mimg : Nifti1Image (list Z))
    (kwargs : gmap string value) (t_r : value)
    (regressor_files : option (list string)) (n_jobs : Z)
    (fs : filesystem) :
  load_niimg load_img mask = Ok mimg ->
  _set_masker mimg kwargs = Ok m ->
  kwargs !! "t_r" = Some t_r ->
  let rf := match regressor_files with
            | None => repeat None (List.length input_files)
            | Some l => map Some l
            end in
  let tasks := combine input_files rf in
  List.length input_files <= List.length rf ->
  all_write (run t_r) w tasks ->
  List.NoDup (map (fun a => fst (w a)) tasks) ->
  (1 < n_jobs)%Z ->
  batch sched input_files mask output_dir labels regressor_files
        regressor_names realign_derivs as_voxels discard_scans n_jobs
        kwargs fs =
    (apply_writes (map w tasks) fs, Ok tt)
  /\ batch sched' input_files mask output_dir labels regressor_files
           regressor_names realign_derivs as_voxels discard_scans 1
           kwargs fs =
       (apply_writes (map w tasks) fs, Ok tt).
Proof.
  intros Hload Hmasker Htr rf tasks Hlen Hall Hnd Hn. split.
  - destruct (starmap_all_write (run t_r) w sched n_jobs tasks fs)
      as (order & Hperm & Hrun); [lia | exact Hall |].
    unfold make_timeseries, mbind, io_mbind, io_bind, lift.
    rewrite Hload, Hmasker.
    destruct (Z.eqb_spec n_jobs 1) as [E | _]; [lia |].
    unfold dict_getitem. rewrite Htr. fold rf. fold tasks.
    etransitivity; [exact Hrun |]. f_equal.
    symmetry. apply apply_writes_Permutation.
    + apply Permutation.Permutation_map, Permutation.Permutation_sym, Hperm.
    + now rewrite List.map_map.
  - unfold make_timeseries.
    rewrite Hload, io_bind_lift_ok. cbn beta.
    rewrite Hmasker, io_bind_lift_ok. cbn beta.
    cbn [Z.eqb Pos.eqb]. unfold enumerate. fold rf.
    rewrite (sequential_loop w kwargs t_r rf Htr input_files 0 fs)
      by exact Hall.
    cbn [skipn]. fold tasks. f_equal.
    destruct (Nat.leb_spec (List.length input_files) (List.length rf - 0));
      [reflexivity | lia].
Qed.

End Orchestrator.

Lemma batch_without_t_r_raises_witness :
  Toy.batch [] ["sub-01_bold.nii.gz"] (InMemory Toy.binary_mask) "out" None
            None None false false None 1 ∅ ∅ =
    (∅, Err (KeyError "t_r")).
Proof.
  apply (batch_without_t_r_raises Toy.nib_load Toy.load_img Toy.read_csv
           Toy.fit_transform Toy.labels_ Toy.writable
           (NiftiMasker Toy.binary_mask ∅)
           "out" None false None None [] ["sub-01_bold.nii.gz"]
           (InMemory Toy.binary_mask) Toy.binary_mask ∅ None 1 ∅).
  - reflexivity.
  - reflexivity.
  - reflexivity.
  - intros _. split; discriminate.
Defined.

Lemma short_confound_list_diverges_witness :
  Toy.batch [] ["a.nii.gz"; "b.nii.gz"] (InMemory Toy.atlas) "out" None
            (Some ["a_confounds.tsv"]) (Some ["rot_x"; "other"]) true false
            None 1 Toy.t_r_2 ∅ =
    ({[ "out/a_timeseries.tsv" := Toy.table_of_bold ]},
     Err (IndexError "list index out of range"))
  /\ exists order,
       Permutation order [("a.nii.gz", Some "a_confounds.tsv")]
       /\ Toy.batch [] ["a.nii.gz"; "b.nii.gz"] (InMemory Toy.atlas) "out"
                    None (Some ["a_confounds.tsv"])
                    (Some ["rot_x"; "other"]) true false None 2 Toy.t_r_2 ∅ =
            (apply_writes (map Toy.plan order) ∅, Ok tt).
Proof.
  destruct (short_confound_list_diverges Toy.nib_load Toy.load_img
              Toy.read_csv Toy.fit_transform Toy.labels_ Toy.writable
              (NiftiLabelsMasker Toy.atlas Toy.t_r_2) "out"
              (Some ["rot_x"; "other"]) true false None None Toy.plan []
              ["a.nii.gz"; "b.nii.gz"] ["a_confounds.tsv"]
              (InMemory Toy.atlas) Toy.atlas Toy.t_r_2 (VFloat 2) ∅)
    as (_ & Hseq & Hpar).
  - reflexivity.
  - reflexivity.
  - reflexivity.
  - simpl. lia.
  - intros t [<- | []] fs. reflexivity.
  - unfold Toy.batch. split.
    + rewrite Hseq. reflexivity.
    + apply (Hpar 2%Z). lia.
Defined.

Lemma parallel_matches_sequential_witness :
  Toy.batch [1; 0; 1]%nat ["a.nii.gz"; "b.nii.gz"] (InMemory Toy.atlas) "out"
            None None None false false None 2 Toy.t_r_2 ∅ =
    ({[ "out/a_timeseries.tsv" := Toy.table_of_bold;
        "out/b_timeseries.tsv" := Toy.table_of_bold ]}, Ok tt)
  /\ Toy.batch [] ["a.nii.gz"; "b.nii.gz"] (InMemory Toy.atlas) "out"
               None None None false false None 1 Toy.t_r_2 ∅ =
       ({[ "out/a_timeseries.tsv" := Toy.table_of_bold;
           "out/b_timeseries.tsv" := Toy.table_of_bold ]}, Ok tt).
Proof.
  destruct (parallel_matches_sequential Toy.nib_load Toy.load_img
              Toy.read_csv Toy.fit_transform Toy.labels_ Toy.writable
              (NiftiLabelsMasker Toy.atlas Toy.t_r_2) "out"
              None false false None None Toy.plan [1; 0; 1]%nat []
              ["a.nii.gz"; "b.nii.gz"]
              (InMemory Toy.atlas) Toy.atlas Toy.t_r_2 (VFloat 2) None 2 ∅)
    as (Hpar & Hseq).
  - reflexivity.
  - reflexivity.
  - reflexivity.
  - simpl. lia.
  - intros t [<- | [<- | []]] fs; reflexivity.
  - vm_compute. repeat constructor; simpl; intuition discriminate.
  - lia.
  - unfold Toy.batch. split.
    + rewrite Hpar. apply (f_equal (fun x => (x, Ok tt))).
      apply map_eq. intros p. vm_compute. reflexivity.
    + rewrite Hseq. apply (f_equal (fun x => (x, Ok tt))).
      apply map_eq. intros p. vm_compute. reflexivity.
Defined.

(** C9 read as stated fails.  When the first of two images cannot be
    loaded, the sequential loop stops there and the second image gets no
    table, while the pool still writes it.  When two images share the text
    before the first dot of their base names, both modes return without
    error, and the one table that remains is the second image's after the
    sequential loop and the first image's under a schedule in which the
    second worker moves first. *)
Lemma parallel_differs_from_sequential :
  (fst (Toy.batch [] ["missing.nii.gz"; "b.nii.gz"] (InMemory Toy.atlas)
                  "out" None None None false false None 2 Toy.t_r_2 ∅)
     !! "out/b_timeseries.tsv" = Some Toy.table_of_bold
   /\ fst (Toy.batch [] ["missing.nii.gz"; "b.nii.gz"] (InMemory Toy.atlas)
                     "out" None None None false false None 1 Toy.t_r_2 ∅)
        !! "out/b_timeseries.tsv" = None)
  /\ (Toy.batch [1%nat] ["run-1/x.nii"; "run-2/x.nii"] (InMemory Toy.atlas)
                "out" None None None false false None 2 Toy.t_r_2 ∅ =
        ({[ "out/x_timeseries.tsv" := Toy.table_of_bold ]}, Ok tt)
      /\ Toy.batch [] ["run-1/x.nii"; "run-2/x.nii"] (InMemory Toy.atlas)
                   "out" None None None false false None 1 Toy.t_r_2 ∅ =
           ({[ "out/x_timeseries.tsv" := Toy.table_of_two_frames ]}, Ok tt)
      /\ Toy.table_of_bold <> Toy.table_of_two_frames).
Proof.
  split; [split | split; [| split]].
  - reflexivity.
  - reflexivity.
  - reflexivity.
  - reflexivity.
  - discriminate.
Qed.

(* ===================================================================== *)
(** ** More on the scan trimmer *)
(* ===================================================================== *)

Lemma length_slice_from {A} (n : Z) (l : list A) :
  List.length (Py.slice_from n l) =
    List.length l - Py.slice_start n (List.length l).
Proof. unfold Py.slice_from. apply List.length_skipn. Qed.

(** X1.  Image and confounds are trimmed in lockstep: when the confound
    matrix has one row per frame before the [discard_scans] block, it has
    one row per frame after it, whatever the count (absent, zero, negative,
    within or beyond the frames); the columns and the affine stay. *)
Theorem discard_block_keeps_alignment
    (discard_scans : option Z) (img : Nifti1Image ndarray4) (c : ndarray2) :
  n_rows c = n_frames img ->
  exists img' c',
    discard_block discard_scans img (Some c) = Ok (img', Some c')
    /\ n_rows c' = n_frames img'
    /\ n_cols c' = n_cols c
    /\ affine img' = affine img.
Proof.
  intros Hal. unfold discard_block.
  destruct discard_scans as [n |]; [| now exists img, c].
  destruct (n >? 0)%Z; [| now exists img, c].
  unfold _discard_initial_scans.
  eexists _, _. split; [reflexivity |]. cbn [affine]. repeat split.
  unfold n_rows, n_frames, slice_rows, slice_time in *. cbn [rows get_data].
  rewrite !length_slice_from. now rewrite Hal.
Qed.

Lemma discard_block_keeps_alignment_witness :
  exists img' c',
    discard_block (Some 2%Z) Toy.bold (Some (values Toy.confound_table)) =
      Ok (img', Some c')
    /\ n_rows c' = n_frames img'
    /\ n_cols c' = 3
    /\ affine img' = Toy.identity_affine.
Proof.
  apply (discard_block_keeps_alignment (Some 2%Z) Toy.bold
           (values Toy.confound_table)).
  reflexivity.
Defined.

(** X2.  A negative count is a slice from the end: called on its own the
    trimmer keeps the last [-n] frames and confound rows (all of them when
    there are no more than [-n]); the driver never gets there, its block
    leaves image and confounds alone for every count that is not
    positive. *)
Theorem discard_negative_count
    (img : Nifti1Image ndarray4) (n : Z) (regs : option ndarray2) :
  (n < 0)%Z ->
  _discard_initial_scans img n regs =
    Ok ({| get_data :=
             skipn (Z.to_nat (Z.of_nat (n_frames img) + n)) (get_data img);
           affine := affine img |},
        option_map
          (fun r => mk_ndarray2 (n_cols r)
                      (skipn (Z.to_nat (Z.of_nat (n_rows r) + n)) (rows r)))
          regs)
  /\ List.length
       (skipn (Z.to_nat (Z.of_nat (n_frames img) + n)) (get_data img)) =
       Nat.min (n_frames img) (Z.to_nat (- n))
  /\ discard_block (Some n) img regs = Ok (img, regs).
Proof.
  intros Hn. split; [| split].
  - unfold _discard_initial_scans, slice_time, slice_rows, Py.slice_from,
      Py.slice_start, n_frames, n_rows.
    destruct (Z.ltb_spec n 0) as [_ | Hge]; [| lia].
    f_equal. f_equal.
    + f_equal. f_equal. lia.
    + destruct regs as [r |]; [| reflexivity]. cbn [option_map].
      do 3 f_equal. lia.
  - rewrite List.length_skipn. unfold n_frames. lia.
  - unfold discard_block. destruct (Z.gtb_spec n 0); [lia | reflexivity].
Qed.

Lemma discard_negative_count_witness :
  _discard_initial_scans Toy.bold (-1) None =
    Ok ({| get_data := [[4; 5]]%Q; affine := Toy.identity_affine |}, None)
  /\ discard_block (Some (-1)%Z) Toy.bold None = Ok (Toy.bold, None).
Proof.
  destruct (discard_negative_count Toy.bold (-1) None) as (Hrun & _ & Hblock).
  - reflexivity.
  - split; [exact Hrun | exact Hblock].
Defined.

(** X3.  Trimming composes: discarding [a] scans and then [b] more, both
    counts non-negative, is discarding [a + b] scans at once, for the image
    and for the confounds. *)
Theorem discard_twice
    (img : Nifti1Image ndarray4) (a b : Z) (regs : option ndarray2) :
  (0 <= a)%Z -> (0 <= b)%Z ->
  ('(img1, regs1) ← _discard_initial_scans img a regs;
   _discard_initial_scans img1 b regs1) =
    _discard_initial_scans img (a + b) regs.
Proof.
  intros Ha Hb. unfold _discard_initial_scans, slice_time, slice_rows.
  cbn [mbind result_bind Py.bind get_data affine].
  rewrite !slice_from_nonneg by lia.
  rewrite List.skipn_skipn.
  replace (Z.to_nat b + Z.to_nat a)%nat with (Z.to_nat (a + b)) by lia.
  destruct regs as [r |]; [| reflexivity].
  cbn [rows n_cols]. rewrite !slice_from_nonneg by lia.
  rewrite List.skipn_skipn.
  replace (Z.to_nat b + Z.to_nat a)%nat with (Z.to_nat (a + b)) by lia.
  reflexivity.
Qed.

Lemma discard_twice_witness :
  ('(img1, regs1) ← _discard_initial_scans Toy.bold 1 None;
   _discard_initial_scans img1 1 regs1) =
    _discard_initial_scans Toy.bold 2 None.
Proof.
  apply (discard_twice Toy.bold 1 1 None); lia.
Defined.

(* ===================================================================== *)
(** ** More on the confound builder *)
(* ===================================================================== *)

Lemma n_rows_take_columns (idx : list nat) (df : DataFrame) :
  n_rows (values (take_columns idx df)) = n_rows (values df).
Proof. unfold n_rows, take_columns. cbn [values rows]. apply List.length_map. Qed.

Lemma locate_filter_found (p : string -> bool) (cols : list string) :
  exists idx, locate cols (List.filter p cols) = Ok idx.
Proof.
  eexists. apply locate_all_found.
  intros nm Hnm. now apply List.filter_In in Hnm.
Qed.

(** X4.  There is no gradient of fewer than two samples: on a table with
    no row or one row the derivative step raises numpy's [ValueError],
    whatever the column names and whatever the spacing, even when no
    column is a realignment column. *)
Theorem compute_realign_derivs_needs_two_rows
    (regressors : DataFrame) (t_r : value) :
  n_rows (values regressors) < 2 ->
  _compute_realign_derivs regressors t_r =
    Err (ValueError
      "Shape of array too small to calculate a numerical gradient, at least (edge_order + 1) elements are required.").
Proof.
  intros Hrows. unfold _compute_realign_derivs. cbn [select].
  destruct (locate_filter_found is_realign (columns regressors)) as [idx ->].
  cbn [fmap result_fmap mbind result_bind Py.bind].
  unfold Np.gradient. rewrite n_rows_take_columns.
  destruct (Nat.ltb_spec (n_rows (values regressors)) 2); [reflexivity | lia].
Qed.

Lemma compute_realign_derivs_needs_two_rows_witness :
  _compute_realign_derivs
    {| columns := ["csf"]; values := {| n_cols := 1; rows := [[1]]%Q |} |}
    (VFloat 2) =
    Err (ValueError
      "Shape of array too small to calculate a numerical gradient, at least (edge_order + 1) elements are required.").
Proof.
  apply compute_realign_derivs_needs_two_rows. vm_compute. lia.
Defined.

Lemma zip_rows_nil_right (rs : list (list Q)) :
  zip_rows rs (map (fun _ : nat => []) (seq 0 (List.length rs))) = rs.
Proof.
  generalize 0%nat. induction rs as [| r rs IH]; intros k; [reflexivity |].
  cbn [List.length seq map zip_rows]. now rewrite List.app_nil_r, IH.
Qed.

(** X5.  With no rotation or translation column in the selection, at least
    two rows and a numeric spacing, the derivative step returns the
    selection as it is. *)
Theorem compute_realign_derivs_without_realign_columns
    (regressors : DataFrame) (t_r : value) (h : Q) :
  List.filter is_realign (columns regressors) = [] ->
  2 <= n_rows (values regressors) ->
  as_number t_r = Some h ->
  _compute_realign_derivs regressors t_r = Ok regressors.
Proof.
  intros Hnone Hrows Hnum. unfold _compute_realign_derivs. rewrite Hnone.
  cbn [select locate fmap result_fmap mbind result_bind Py.bind].
  unfold Np.gradient. rewrite n_rows_take_columns.
  destruct (Nat.ltb_spec (n_rows (values regressors)) 2); [lia |].
  rewrite Hnum. cbn [mbind result_bind Py.bind map].
  unfold DataFrame_new, columns_of. cbn. f_equal.
  destruct regressors as [cols [nc rs]]. unfold concat_axis1, n_rows.
  cbn. rewrite List.app_nil_r, Nat.add_0_r, zip_rows_nil_right. reflexivity.
Qed.

Lemma compute_realign_derivs_without_realign_columns_witness :
  _compute_realign_derivs
    {| columns := ["csf"; "white_matter"];
       values := {| n_cols := 2; rows := [[1; 2]; [3; 4]]%Q |} |}
    (VInt 2) =
    Ok {| columns := ["csf"; "white_matter"];
          values := {| n_cols := 2; rows := [[1; 2]; [3; 4]]%Q |} |}.
Proof.
  apply (compute_realign_derivs_without_realign_columns _ (VInt 2) 2%Q).
  - reflexivity.
  - vm_compute. lia.
  - reflexivity.
Defined.

Lemma compute_realign_derivs_n_rows (regressors out : DataFrame)
    (t_r : value) :
  _compute_realign_derivs regressors t_r = Ok out ->
  n_rows (values out) = n_rows (values regressors).
Proof.
  unfold _compute_realign_derivs. cbn [select].
  destruct (locate_filter_found is_realign (columns regressors)) as [idx ->].
  cbn [fmap result_fmap mbind result_bind Py.bind].
  unfold Np.gradient. rewrite n_rows_take_columns.
  destruct (n_rows (values regressors) <? 2)%nat; [discriminate |].
  destruct (as_number t_r) as [h |]; [| discriminate].
  cbn [mbind result_bind Py.bind]. unfold DataFrame_new.
  destruct (_ =? _)%nat; [| discriminate].
  cbn [mbind result_bind Py.bind]. intros [= <-].
  unfold n_rows, concat_axis1. cbn [values rows as_2d of_columns].
  apply length_zip_rows. now rewrite List.length_map, List.length_seq.
Qed.

Lemma index_where_found_inv (nm : string) (off : nat) (l : list string) :
  index_where (String.eqb nm) off l = [] -> ~ List.In nm l.
Proof. intros E Hin. now apply (index_where_found nm off l Hin). Qed.

Lemma locate_absent (cols names : list string) :
  (exists nm, List.In nm names /\ ~ List.In nm cols) ->
  exists missing,
    List.In missing names /\ ~ List.In missing cols
    /\ locate cols names = Err (KeyError missing).
Proof.
  induction names as [| nm0 rest IH]; intros (nm & Hin & Hout);
    [contradiction |].
  cbn [locate].
  destruct (index_where (String.eqb nm0) 0 cols) as [| j js] eqn:E.
  - exists nm0. repeat split; [now left |].
    now apply (index_where_found_inv nm0 0).
  - destruct Hin as [-> | Hin].
    + exfalso. apply Hout.
      destruct (List.in_dec String.string_dec nm cols) as [Hc | Hc];
        [exact Hc |].
      rewrite index_where_none in E; [discriminate |].
      intros c Hc'. apply String.eqb_neq. intros <-. contradiction.
    + destruct IH as (missing & Hm & Hmo & ->); [now exists nm |].
      exists missing. repeat split; [now right | exact Hmo].
Qed.

(** In a header without repeated names a name stands at one position. *)
Lemma index_where_unique (nm : string) (off : nat) (cols : list string) :
  List.NoDup cols -> List.In nm cols ->
  exists j, index_where (String.eqb nm) off cols = [off + j]%nat
            /\ nth_error cols j = Some nm.
Proof.
  revert off. induction cols as [| c t IH]; intros off Hnd Hin;
    [contradiction |].
  inversion Hnd as [| ? ? Hc Hnd']; subst. cbn [index_where].
  destruct (String.eqb_spec nm c) as [-> | Hne].
  - exists 0%nat. rewrite Nat.add_0_r. split; [| reflexivity].
    rewrite index_where_none; [reflexivity |].
    intros c' Hc'. apply String.eqb_neq. intros <-. contradiction.
  - destruct Hin as [-> | Hin]; [contradiction |].
    destruct (IH (S off) Hnd' Hin) as (j & E & Hj).
    exists (S j). rewrite E. split; [| exact Hj].
    cbn [app]. f_equal. lia.
Qed.

Lemma locate_unique (cols names : list string) :
  List.NoDup cols ->
  (forall nm, List.In nm names -> List.In nm cols) ->
  exists idx,
    locate cols names = Ok idx
    /\ List.Forall2 (fun nm j => nth_error cols j = Some nm) names idx.
Proof.
  intros Hnd. induction names as [| nm rest IH]; intros Hin.
  - exists []. split; [reflexivity | constructor].
  - destruct (index_where_unique nm 0 cols Hnd (Hin nm (or_introl eq_refl)))
      as (j & E & Hj).
    destruct IH as (idx & Hloc & Hall);
      [intros nm' Hnm'; apply Hin; now right |].
    exists (j :: idx). cbn [locate]. rewrite E, Hloc. split; [reflexivity |].
    now constructor.
Qed.

Lemma Forall2_nth_error_nth {A B} (R : A -> B -> Prop) (l : list A)
    (l' : list B) (k : nat) (a : A) (d : B) :
  List.Forall2 R l l' -> nth_error l k = Some a -> R a (nth k l' d).
Proof.
  intros Hall. revert k. induction Hall as [| x y l l' Hxy Hall IH];
    intros k Hk; [destruct k; discriminate |].
  destruct k as [| k]; cbn in *; [congruence | now apply IH].
Qed.

Section ConfoundBuilderMore.

Variable read_csv : string -> result DataFrame.

(** X6.  A requested name that is no column of the file is a [KeyError]
    naming an absent column, with or without derivative augmentation and
    whatever the spacing: the selection comes before both. *)
Theorem build_regressors_absent_column
    (fname : string) (names : list string) (all_regressors : DataFrame)
    (realign_derivatives : bool) (t_r : value) (nm : string) :
  read_csv fname = Ok all_regressors ->
  List.In nm names ->
  ~ List.In nm (columns all_regressors) ->
  exists missing,
    List.In missing names
    /\ ~ List.In missing (columns all_regressors)
    /\ _build_regressors read_csv fname (Some names) realign_derivatives t_r =
         Err (KeyError missing).
Proof.
  intros Hread Hin Hout.
  destruct (locate_absent (columns all_regressors) names)
    as (missing & Hm & Hmo & Hloc); [now exists nm |].
  exists missing. repeat split; [exact Hm | exact Hmo |].
  unfold _build_regressors. rewrite Hread.
  cbn [mbind result_bind Py.bind select]. rewrite Hloc. reflexivity.
Qed.

(** X7.  Whenever the builder returns a matrix, the matrix has one row per
    data row of the file, with or without derivative columns. *)
Theorem build_regressors_keeps_rows
    (fname : string) (names : option (list string))
    (all_regressors : DataFrame) (realign_derivatives : bool) (t_r : value)
    (m : ndarray2) :
  read_csv fname = Ok all_regressors ->
  _build_regressors read_csv fname names realign_derivatives t_r = Ok m ->
  n_rows m = n_rows (values all_regressors).
Proof.
  intros Hread. unfold _build_regressors. rewrite Hread.
  cbn [mbind result_bind Py.bind].
  destruct names as [names |]; cbn [select]; [| discriminate].
  destruct (locate (columns all_regressors) names) as [idx | e];
    cbn [mbind result_bind Py.bind]; [| discriminate].
  destruct realign_derivatives.
  - destruct t_r; try discriminate;
      match goal with
      | |- context [_compute_realign_derivs ?r ?t] =>
          destruct (_compute_realign_derivs r t) as [out | e] eqn:E
      end; cbn [mbind result_bind Py.bind]; try discriminate;
      intros [= <-];
      rewrite (compute_realign_derivs_n_rows _ _ _ E);
      apply n_rows_take_columns.
  - cbn [mbind result_bind Py.bind]. intros [= <-].
    apply n_rows_take_columns.
Qed.

(** X8.  Without derivative augmentation, on a file whose header has no
    repeated name and holds every requested name, the builder returns one
    column per requested name, in the order requested: column [k] is the
    file's column that carries the [k]-th name.  The spacing plays no
    part. *)
Theorem build_regressors_selects_in_order
    (fname : string) (names : list string) (all_regressors : DataFrame)
    (t_r : value) :
  read_csv fname = Ok all_regressors ->
  List.NoDup (columns all_regressors) ->
  (forall nm, List.In nm names -> List.In nm (columns all_regressors)) ->
  exists m,
    _build_regressors read_csv fname (Some names) false t_r = Ok m
    /\ n_cols m = List.length names
    /\ n_rows m = n_rows (values all_regressors)
    /\ forall k nm, nth_error names k = Some nm ->
         exists j, nth_error (columns all_regressors) j = Some nm
                   /\ column k m = column j (values all_regressors).
Proof.
  intros Hread Hnd Hin.
  destruct (locate_unique (columns all_regressors) names Hnd Hin)
    as (idx & Hloc & Hall).
  exists (values (take_columns idx all_regressors)).
  split; [| split; [| split]].
  - unfold _build_regressors. rewrite Hread.
    cbn [mbind result_bind Py.bind select]. rewrite Hloc. reflexivity.
  - cbn. symmetry. eapply List.Forall2_length, Hall.
  - apply n_rows_take_columns.
  - intros k nm Hk.
    assert (Hklt : k < List.length idx).
    { rewrite <- (List.Forall2_length Hall). apply List.nth_error_Some.
      congruence. }
    exists (nth k idx 0%nat). split.
    + exact (Forall2_nth_error_nth _ _ _ _ _ 0%nat Hall Hk).
    + now apply column_take_columns.
Qed.

End ConfoundBuilderMore.

Lemma build_regressors_absent_column_witness :
  exists missing,
    List.In missing ["rot_x"; "csf"]
    /\ ~ List.In missing (columns Toy.confound_table)
    /\ _build_regressors Toy.read_csv "confounds.tsv" (Some ["rot_x"; "csf"])
         true VNone = Err (KeyError missing).
Proof.
  apply (build_regressors_absent_column Toy.read_csv "confounds.tsv"
           ["rot_x"; "csf"] Toy.confound_table true VNone "csf").
  - reflexivity.
  - simpl. tauto.
  - simpl. intuition discriminate.
Defined.

Lemma build_regressors_keeps_rows_witness :
  n_rows {| n_cols := 3; rows := [[3; 1; 1 # 2]; [6; 2; 3 # 4];
                                  [12; 4; 2 # 2]]%Q |} =
    n_rows (values Toy.confound_table).
Proof.
  apply (build_regressors_keeps_rows Toy.read_csv "confounds.tsv"
           (Some ["other"; "rot_x"]) Toy.confound_table true (VFloat 2)).
  - reflexivity.
  - reflexivity.
Defined.

Lemma build_regressors_selects_in_order_witness :
  exists m,
    _build_regressors Toy.read_csv "confounds.tsv" (Some ["other"; "rot_x"])
      false VNone = Ok m
    /\ n_cols m = 2
    /\ n_rows m = 3
    /\ forall k nm, nth_error ["other"; "rot_x"] k = Some nm ->
         exists j, nth_error (columns Toy.confound_table) j = Some nm
                   /\ column k m = column j (values Toy.confound_table).
Proof.
  apply (build_regressors_selects_in_order Toy.read_csv "confounds.tsv"
           ["other"; "rot_x"] Toy.confound_table VNone).
  - reflexivity.
  - vm_compute. repeat constructor; simpl; intuition discriminate.
  - simpl. intuition.
Defined.

(* ===================================================================== *)
(** ** More on the masker selector *)
(* ===================================================================== *)

(** X9.  What the selector counts is the distinct non-zero values of the
    mask, plus one when the mask has a zero voxel; a count of two builds
    the binary-region masker, a higher one the atlas masker, a lower one is
    the error.  So on a mask with background, one region gives the binary
    masker, several the atlas masker and none the error; on a mask without
    background one region fewer is seen. *)
Theorem set_masker_by_region_count
    (mask_img : Nifti1Image (list Z)) (kwargs : gmap string value) :
  let k := List.length (nonzero_labels (get_data mask_img)) in
  let n := if existsb (Z.eqb 0) (get_data mask_img) then S k else k in
  _set_masker mask_img kwargs =
    if (2 <? n)%nat then Ok (NiftiLabelsMasker mask_img kwargs)
    else if (n =? 2)%nat then Ok (NiftiMasker mask_img kwargs)
    else Err (ValueError "No ROI detected; check ROI file").
Proof.
  intros k n. unfold _set_masker.
  destruct (existsb (Z.eqb 0) (get_data mask_img)) eqn:E.
  - apply List.existsb_exists in E as (x & Hx & Hx0).
    apply Z.eqb_eq in Hx0. subst x.
    now rewrite (unique_length_background _ Hx).
  - assert (H0 : ~ List.In 0%Z (get_data mask_img)).
    { intros Hin. apply Bool.not_true_iff_false in E. apply E.
      apply List.existsb_exists. exists 0%Z. split; [exact Hin |].
      apply Z.eqb_refl. }
    now rewrite (unique_length_no_background _ H0).
Qed.

Lemma unique_constant (v : Z) (data : list Z) :
  (forall x, List.In x data -> x = v) ->
  Np.unique data = [] \/ Np.unique data = [v].
Proof.
  induction data as [| y t IH]; intros Hall; [now left |].
  right. cbn [Np.unique fold_right].
  rewrite (Hall y (or_introl eq_refl)).
  destruct IH as [E | E]; [intros x Hx; apply Hall; now right | |];
    fold (Np.unique t); rewrite E; cbn [insert_unique]; [reflexivity |].
  rewrite Z.ltb_irrefl, Z.eqb_refl. reflexivity.
Qed.

(** The number of distinct values depends on the values present only. *)
Lemma unique_length_same_values (d1 d2 : list Z) :
  (forall x, List.In x d1 <-> List.In x d2) ->
  List.length (Np.unique d1) = List.length (Np.unique d2).
Proof.
  intros Hsame. apply Permutation.Permutation_length, Permutation.NoDup_Permutation.
  - apply unique_NoDup.
  - apply unique_NoDup.
  - intros x. rewrite !unique_In. apply Hsame.
Qed.

(** X10.  The selector looks at which values occur in the mask, not at
    where or how often: two masks with the same set of voxel values get
    the same kind of masker, or both the error. *)
Theorem set_masker_same_values
    (m1 m2 : Nifti1Image (list Z)) (kwargs : gmap string value) :
  (forall x, List.In x (get_data m1) <-> List.In x (get_data m2)) ->
  match _set_masker m1 kwargs, _set_masker m2 kwargs with
  | Ok k1, Ok k2 => is_NiftiMasker k1 = is_NiftiMasker k2
  | Err e1, Err e2 => e1 = e2
  | _, _ => False
  end.
Proof.
  intros Hsame. unfold _set_masker.
  rewrite (unique_length_same_values _ _ Hsame).
  destruct (2 <? _)%nat; [reflexivity |].
  destruct (_ =? 2)%nat; reflexivity.
Qed.

Lemma set_masker_same_values_witness :
  match _set_masker Toy.atlas Toy.t_r_2,
        _set_masker {| get_data := [2; 2; 1; 0; 0; 0]%Z;
                       affine := Toy.identity_affine |} Toy.t_r_2 with
  | Ok k1, Ok k2 => is_NiftiMasker k1 = is_NiftiMasker k2
  | Err e1, Err e2 => e1 = e2
  | _, _ => False
  end.
Proof.
  apply (set_masker_same_values Toy.atlas _ Toy.t_r_2).
  intros x. simpl. intuition.
Defined.

(* ===================================================================== *)
(** ** More on the extraction step *)
(* ===================================================================== *)

Lemma to_uint_not_nil (n : nat) : Nat.to_uint n <> Decimal.Nil.
Proof.
  pose proof (DecimalNat.Unsigned.to_of (Nat.to_uint n)) as E.
  rewrite DecimalNat.Unsigned.of_to in E. rewrite E.
  apply DecimalFacts.unorm_nonnil.
Qed.

Lemma str_of_nat_inj (i j : nat) : str_of_nat i = str_of_nat j -> i = j.
Proof.
  unfold str_of_nat. intros E.
  apply (f_equal NilZero.uint_of_string) in E.
  rewrite !NilZero.usu in E by apply to_uint_not_nil.
  injection E as E. now apply DecimalNat.Unsigned.to_uint_inj.
Qed.

Lemma voxel_labels_NoDup (n : nat) :
  List.NoDup (map (fun i => ("voxel" ++ str_of_nat i)%string) (seq 0 n)).
Proof.
  apply Injective_map_NoDup; [| apply List.seq_NoDup].
  intros i j E. apply str_of_nat_inj.
  now apply (String.app_inj "voxel").
Qed.

Section ExtractionMore.

Variable fit_transform :
  masker -> Nifti1Image ndarray4 -> option ndarray2 -> result ndarray2.
Variable labels_ : masker -> labels.

Variable m : masker.
Variable img : Nifti1Image ndarray4.
Variable confounds : option ndarray2.
Variable timeseries : ndarray2.
Hypothesis Hfit : fit_transform m img confounds = Ok timeseries.

(** X12.  In voxel mode a binary-region masker always gives a table: one
    column per extracted column, the values untouched, under pairwise
    distinct labels [voxel0], [voxel1], ...; labels the caller supplied
    are ignored, whatever their number. *)
Theorem mask_voxels_ignores_labels (roi_labels : option labels) :
  is_NiftiMasker m = true ->
  exists data,
    _mask fit_transform labels_ m img confounds roi_labels true = Ok data
    /\ values data = timeseries
    /\ List.length (columns data) = n_cols timeseries
    /\ List.NoDup (columns data)
    /\ _mask fit_transform labels_ m img confounds None true = Ok data.
Proof.
  intros Hbinary.
  pose proof (mask_as_voxels fit_transform labels_ m img confounds
                timeseries Hbinary Hfit) as Hrun.
  eexists. split; [apply Hrun |]. cbn [values columns].
  split; [reflexivity |]. split; [| split].
  - now rewrite List.length_map, List.length_seq.
  - apply voxel_labels_NoDup.
  - apply Hrun.
Qed.

(** X13.  In region mode a binary-region masker needs exactly one label:
    a caller's list of one label names the single column of row means,
    and whatever iterates to no label or to several makes the table
    constructor raise. *)
Theorem mask_region_needs_one_label (ls : labels) :
  is_NiftiMasker m = true ->
  _mask fit_transform labels_ m img confounds (Some ls) false =
    match iter_labels ls with
    | [l] =>
        Ok {| columns := [str l];
              values := {| n_cols := 1;
                           rows := map (fun r => [Np.mean r])
                                       (rows timeseries) |} |}
    | _ =>
        Err (ValueError "Shape of passed values does not match the indices")
    end.
Proof.
  intros Hbinary. unfold _mask. rewrite Hfit.
  cbn [mbind result_bind Py.bind]. rewrite Hbinary.
  unfold DataFrame_new, mean_axis1. cbn [as_2d n_cols].
  rewrite List.length_map.
  destruct (iter_labels ls) as [| l [| l' rest]]; cbn; try reflexivity.
  now rewrite List.map_map.
Qed.

(** X14.  For an atlas masker the voxel flag changes nothing: with or
    without it the table is the extracted matrix as it is, under the
    masker's labels or, when given, the caller's, and the labels must be as
    many as the extracted columns or the table constructor raises. *)
Theorem mask_atlas_ignores_voxel_flag
    (roi_labels : option labels) (as_voxels : bool) :
  is_NiftiMasker m = false ->
  let ls := iter_labels match roi_labels with
                        | None => labels_ m
                        | Some l => l
                        end in
  _mask fit_transform labels_ m img confounds roi_labels as_voxels =
    (if (n_cols timeseries =? List.length ls)%nat
     then Ok {| columns := map str ls; values := timeseries |}
     else Err (ValueError
                 "Shape of passed values does not match the indices"))
  /\ _mask fit_transform labels_ m img confounds roi_labels as_voxels =
       _mask fit_transform labels_ m img confounds roi_labels false.
Proof.
  intros Hatlas ls. unfold _mask. rewrite Hfit.
  cbn [mbind result_bind Py.bind]. rewrite Hatlas.
  unfold DataFrame_new. cbn [as_2d]. rewrite List.length_map.
  split; reflexivity.
Qed.

(** X15.  Whatever the masker and the mode, a table the extraction step
    returns has one row per extracted row and one label per column: a
    single column in the region mode of a binary-region masker, as many
    columns as were extracted otherwise.  When the extracted rows all have
    the extracted width, every record written for the table has as many
    fields as the header. *)
Theorem mask_table_shape
    (roi_labels : option labels) (as_voxels : bool) (data : DataFrame) :
  Np.wf timeseries ->
  _mask fit_transform labels_ m img confounds roi_labels as_voxels = Ok data ->
  wf_frame data
  /\ n_rows (values data) = n_rows timeseries
  /\ n_cols (values data) =
       (if is_NiftiMasker m && negb as_voxels then 1 else n_cols timeseries)
  /\ Forall (fun r => List.length r =
                      List.length (header (render data Py.tab false
                                                  (PercentF 8))))
            (records (render data Py.tab false (PercentF 8))).
Proof.
  intros Hwf. unfold _mask. rewrite Hfit. cbn [mbind result_bind Py.bind].
  assert (Hshape : forall arr ls,
            Np.wf (as_2d arr) ->
            DataFrame_new arr (map str (iter_labels ls)) = Ok data ->
            wf_frame data
            /\ values data = as_2d arr
            /\ Forall (fun r => List.length r =
                          List.length (header (render data Py.tab false
                                                 (PercentF 8))))
                      (records (render data Py.tab false (PercentF 8)))).
  { intros arr ls Harr. unfold DataFrame_new.
    destruct (Nat.eqb_spec (n_cols (as_2d arr))
                (List.length (map str (iter_labels ls)))) as [E | _];
      [| discriminate].
    intros [= <-]. split; [| split].
    - split; [cbn; now rewrite E | exact Harr].
    - reflexivity.
    - unfold render. cbn [records header columns values app].
      rewrite render_rows_no_index. apply List.Forall_map.
      unfold Np.wf in Harr. rewrite List.Forall_forall in *.
      intros r Hr. rewrite List.length_map, (Harr r Hr). exact E. }
  destruct (is_NiftiMasker m); [destruct as_voxels |]; cbn [andb negb];
    intros Hrun.
  - apply Hshape in Hrun as (Hf & Hv & Hrec); [| exact Hwf].
    rewrite Hv.
    split; [exact Hf | split; [reflexivity | split; [reflexivity | exact Hrec]]].
  - apply Hshape in Hrun as (Hf & Hv & Hrec).
    + rewrite Hv.
      split; [exact Hf | split; [| split; [reflexivity | exact Hrec]]].
      unfold n_rows, mean_axis1. cbn [as_2d rows].
      now rewrite !List.length_map.
    + unfold Np.wf, mean_axis1. cbn [as_2d rows n_cols].
      apply List.Forall_map, List.Forall_forall. reflexivity.
  - apply Hshape in Hrun as (Hf & Hv & Hrec); [| exact Hwf].
    rewrite Hv.
    split; [exact Hf | split; [reflexivity | split; [reflexivity | exact Hrec]]].
Qed.

End ExtractionMore.

Lemma mask_voxels_ignores_labels_witness :
  exists data,
    _mask Toy.fit_transform Toy.labels_
          (NiftiMasker Toy.binary_mask Toy.t_r_2) Toy.bold None
          (Some (OneStr "amygdala")) true = Ok data
    /\ values data = {| n_cols := 2; rows := get_data Toy.bold |}
    /\ columns data = ["voxel0"; "voxel1"].
Proof.
  destruct (mask_voxels_ignores_labels Toy.fit_transform Toy.labels_
              (NiftiMasker Toy.binary_mask Toy.t_r_2) Toy.bold None
              {| n_cols := 2; rows := get_data Toy.bold |} eq_refl
              (Some (OneStr "amygdala")) eq_refl)
    as (data & Hrun & Hvals & _ & _ & _).
  exists data. repeat split; [exact Hrun | exact Hvals |].
  injection Hrun as <-. reflexivity.
Defined.

Lemma mask_region_needs_one_label_witness :
  _mask Toy.fit_transform Toy.labels_
        (NiftiMasker Toy.binary_mask Toy.t_r_2) Toy.bold None
        (Some (Labels [LStr "left"; LStr "right"])) false =
    Err (ValueError "Shape of passed values does not match the indices")
  /\ exists data,
       _mask Toy.fit_transform Toy.labels_
             (NiftiMasker Toy.binary_mask Toy.t_r_2) Toy.bold None
             (Some (Labels [LInt 7])) false = Ok data
       /\ columns data = ["7"].
Proof.
  split.
  - apply (mask_region_needs_one_label Toy.fit_transform Toy.labels_
             (NiftiMasker Toy.binary_mask Toy.t_r_2) Toy.bold None
             {| n_cols := 2; rows := get_data Toy.bold |} eq_refl
             (Labels [LStr "left"; LStr "right"]) eq_refl).
  - eexists. split.
    + apply (mask_region_needs_one_label Toy.fit_transform Toy.labels_
               (NiftiMasker Toy.binary_mask Toy.t_r_2) Toy.bold None
               {| n_cols := 2; rows := get_data Toy.bold |} eq_refl
               (Labels [LInt 7]) eq_refl).
    + reflexivity.
Defined.

Lemma mask_atlas_ignores_voxel_flag_witness :
  _mask Toy.fit_transform Toy.labels_
        (NiftiLabelsMasker Toy.atlas Toy.t_r_2) Toy.bold None None true =
    Ok {| columns := ["1"; "2"];
          values := {| n_cols := 2; rows := get_data Toy.bold |} |}
  /\ _mask Toy.fit_transform Toy.labels_
           (NiftiLabelsMasker Toy.atlas Toy.t_r_2) Toy.bold None None true =
       _mask Toy.fit_transform Toy.labels_
             (NiftiLabelsMasker Toy.atlas Toy.t_r_2) Toy.bold None None false.
Proof.
  apply (mask_atlas_ignores_voxel_flag Toy.fit_transform Toy.labels_
           (NiftiLabelsMasker Toy.atlas Toy.t_r_2) Toy.bold None
           {| n_cols := 2; rows := get_data Toy.bold |} eq_refl None true
           eq_refl).
Defined.

Lemma mask_table_shape_witness :
  exists data,
    _mask Toy.fit_transform Toy.labels_
          (NiftiMasker Toy.binary_mask Toy.t_r_2) Toy.bold None None false =
      Ok data
    /\ wf_frame data
    /\ n_rows (values data) = 3
    /\ n_cols (values data) = 1.
Proof.
  destruct (_mask Toy.fit_transform Toy.labels_
              (NiftiMasker Toy.binary_mask Toy.t_r_2) Toy.bold None None
              false) as [data | e] eqn:E; [| discriminate E].
  exists data. split; [reflexivity |].
  destruct (mask_table_shape Toy.fit_transform Toy.labels_
              (NiftiMasker Toy.binary_mask Toy.t_r_2) Toy.bold None
              {| n_cols := 2; rows := get_data Toy.bold |} eq_refl None false
              data) as (Hf & Hr & Hc & _).
  - repeat constructor.
  - exact E.
  - split; [exact Hf | split; [exact Hr | exact Hc]].
Defined.

(* ===================================================================== *)
(** ** More on the per-image driver *)
(* ===================================================================== *)

Lemma string_app_cons (c : ascii) (s t : string) :
  (String c s ++ t)%string = String c (s ++ t)%string.
Proof. reflexivity. Qed.

Lemma contains_char_cons (a c : ascii) (s : string) :
  Py.contains (String a EmptyString) (String c s) =
    Ascii.eqb a c || Py.contains (String a EmptyString) s.
Proof.
  cbn [Py.contains String.prefix]. f_equal.
  destruct (ascii_dec a c) as [-> | Hne].
  - rewrite Ascii.eqb_refl. now destruct s.
  - symmetry. now apply Ascii.eqb_neq.
Qed.

Lemma contains_char_app (a : ascii) (s t : string) :
  Py.contains (String a EmptyString) (s ++ t)%string =
    Py.contains (String a EmptyString) s
    || Py.contains (String a EmptyString) t.
Proof.
  induction s as [| c s IH].
  - change (EmptyString ++ t)%string with t. now destruct t.
  - rewrite string_app_cons, !contains_char_cons, IH.
    now rewrite orb_assoc.
Qed.

Lemma basename_no_slash (b : string) :
  Py.contains "/" b = false -> Py.basename b = b.
Proof.
  destruct b as [| c rest]; [reflexivity |].
  rewrite contains_char_cons. intros H.
  apply orb_false_elim in H as [Hc Hrest].
  cbn [Py.basename]. rewrite Hrest.
  rewrite Ascii.eqb_sym, Hc. reflexivity.
Qed.

Lemma basename_dir (d b : string) :
  Py.contains "/" b = false -> Py.basename (d ++ "/" ++ b) = b.
Proof.
  intros Hb. induction d as [| c d IH].
  - change (EmptyString ++ "/" ++ b)%string with (String "/"%char b).
    cbn [Py.basename]. now rewrite Hb.
  - rewrite string_app_cons. cbn [Py.basename].
    rewrite contains_char_app.
    change ("/" ++ b)%string with (String "/"%char b).
    rewrite (contains_char_cons "/" "/" b), Ascii.eqb_refl.
    cbn [orb]. rewrite orb_true_r. exact IH.
Qed.

Lemma before_first_dot_no_dot (stem : string) :
  Py.contains "." stem = false -> Py.before_first_dot stem = stem.
Proof.
  induction stem as [| c stem IH]; [reflexivity |].
  rewrite contains_char_cons. intros H.
  apply orb_false_elim in H as [Hc Hrest].
  cbn [Py.before_first_dot]. rewrite Ascii.eqb_sym, Hc.
  now rewrite IH.
Qed.

Lemma before_first_dot_stem (stem ext : string) :
  Py.contains "." stem = false ->
  Py.before_first_dot (stem ++ "." ++ ext) = stem.
Proof.
  induction stem as [| c stem IH].
  - intros _. reflexivity.
  - rewrite contains_char_cons. intros H.
    apply orb_false_elim in H as [Hc Hrest].
    rewrite string_app_cons. cbn [Py.before_first_dot].
    rewrite Ascii.eqb_sym, Hc. now rewrite IH.
Qed.

(** X16.  The name of the output file is made of the image's base name up
    to its first dot: the directory of the image and everything from the
    first dot on play no part.  So images that differ only in directory
    or in what follows the first dot are written to the same path. *)
Theorem output_path_drops_directory_and_extensions
    (output_dir dir stem ext dir' ext' : string) :
  Py.contains "/" stem = false ->
  Py.contains "." stem = false ->
  Py.contains "/" ext = false ->
  Py.contains "/" ext' = false ->
  output_path output_dir (dir ++ "/" ++ stem ++ "." ++ ext) =
    Py.path_join output_dir (stem ++ "_timeseries.tsv")
  /\ output_path output_dir (stem ++ "." ++ ext) =
       Py.path_join output_dir (stem ++ "_timeseries.tsv")
  /\ output_path output_dir (dir ++ "/" ++ stem ++ "." ++ ext) =
       output_path output_dir (dir' ++ "/" ++ stem ++ "." ++ ext').
Proof.
  intros Hs Hd He He'.
  assert (Hname : forall e, Py.contains "/" e = false ->
            Py.contains "/" (stem ++ "." ++ e) = false).
  { intros e Hne. rewrite contains_char_app, Hs.
    change ("." ++ e)%string with (String "."%char e).
    now rewrite contains_char_cons, Hne. }
  assert (Hdir : forall d e, Py.contains "/" e = false ->
            output_path output_dir (d ++ "/" ++ stem ++ "." ++ e) =
              Py.path_join output_dir (stem ++ "_timeseries.tsv")).
  { intros d e Hne. unfold output_path.
    rewrite (basename_dir d _ (Hname e Hne)).
    now rewrite before_first_dot_stem. }
  split; [| split].
  - now apply Hdir.
  - unfold output_path. rewrite (basename_no_slash _ (Hname ext He)).
    now rewrite before_first_dot_stem.
  - now rewrite !Hdir.
Qed.

Lemma output_path_drops_directory_and_extensions_witness :
  output_path "out" ("/data/sub-01/func" ++ "/" ++ "bold" ++ "." ++ "nii.gz") =
    "out/bold_timeseries.tsv"
  /\ output_path "out" ("/data/sub-01/func" ++ "/" ++ "bold" ++ "." ++ "nii.gz") =
       output_path "out" ("/data/sub-02/func" ++ "/" ++ "bold" ++ "." ++ "run-2.nii").
Proof.
  destruct (output_path_drops_directory_and_extensions "out"
              "/data/sub-01/func" "bold" "nii.gz" "/data/sub-02/func"
              "run-2.nii") as (H1 & _ & H3); try reflexivity.
  split; [rewrite H1; reflexivity | exact H3].
Defined.

Section DriverMore.

Variable nib_load : string -> result (Nifti1Image ndarray4).
Variable read_csv : string -> result DataFrame.
Variable fit_transform :
  masker -> Nifti1Image ndarray4 -> option ndarray2 -> result ndarray2.
Variable labels_ : masker -> labels.
Variable writable : string -> bool.

Lemma mask_and_save_outcome
    (m : masker) (img_name output_dir : string)
    (regressor_file : option string) (regressor_names : option (list string))
    (realign_derivs : bool) (t_r : value) (as_voxels : bool)
    (labels : option labels) (discard_scans : option Z) (fs : filesystem) :
  _mask_and_save nib_load read_csv fit_transform labels_ writable m
    img_name output_dir regressor_file regressor_names realign_derivs t_r
    as_voxels labels discard_scans fs =
    match written_table nib_load read_csv fit_transform labels_ writable m
            img_name output_dir regressor_file regressor_names realign_derivs
            t_r as_voxels labels discard_scans with
    | Ok table => (<[output_path output_dir img_name := table]> fs, Ok tt)
    | Err e => (fs, Err e)
    end.
Proof.
  unfold _mask_and_save, written_table, extracted_table, mbind, io_mbind,
    io_bind, lift, result_bind, Py.bind.
  destruct (nib_load img_name) as [img | e]; [| reflexivity].
  destruct (match regressor_file with
            | Some file =>
                Some <$> _build_regressors read_csv file regressor_names
                           realign_derivs t_r
            | None => Ok None
            end) as [confounds | e]; [| reflexivity].
  destruct (discard_block discard_scans img confounds) as [[img' c'] | e];
    [| reflexivity].
  destruct (_mask fit_transform labels_ m img' c' labels as_voxels)
    as [data | e]; [| reflexivity].
  unfold to_csv, output_path.
  now destruct (writable _).
Qed.

End DriverMore.

(* ===================================================================== *)
(** ** More on the worker pool *)
(* ===================================================================== *)

Lemma successes_app (l l' : list (string * result CsvFile)) :
  successes (l ++ l') = successes l ++ successes l'.
Proof. apply List.flat_map_app. Qed.

Lemma failures_app (l l' : list (string * result CsvFile)) :
  failures (l ++ l') = failures l ++ failures l'.
Proof. apply List.flat_map_app. Qed.

Lemma successes_one (x : string * result CsvFile) :
  successes [x] = match snd x with
                  | Ok table => [(fst x, table)]
                  | Err _ => []
                  end.
Proof. unfold successes. cbn [flat_map]. apply List.app_nil_r. Qed.

Lemma failures_one (x : string * result CsvFile) :
  failures [x] = match snd x with
                 | Ok _ => []
                 | Err e => [e]
                 end.
Proof. unfold failures. cbn [flat_map]. apply List.app_nil_r. Qed.

Lemma chunksize_one (n p : nat) :
  0 < n -> n <= 4 * p -> Mp.chunksize n p = 1.
Proof.
  intros Hn Hp. unfold Mp.chunksize.
  destruct (Nat.eq_dec n (4 * p)) as [-> | Hne].
  - rewrite Nat.div_same, Nat.Div0.mod_same by lia. reflexivity.
  - rewrite Nat.div_small, Nat.mod_small by lia.
    destruct (Nat.eqb_spec n 0); [lia | reflexivity].
Qed.

Lemma chunks_of_one {T} (fuel : nat) (l : list T) :
  List.length l <= fuel -> Mp.chunks_of fuel 1 l = map (fun t => [t]) l.
Proof.
  revert l. induction fuel as [| fuel IH]; intros l Hl.
  - destruct l; [reflexivity | simpl in Hl; lia].
  - destruct l as [| a l']; [reflexivity |].
    change (Mp.chunks_of (S fuel) 1 (a :: l'))
      with ([a] :: Mp.chunks_of fuel 1 l').
    rewrite IH by (simpl in Hl; lia). reflexivity.
Qed.

Lemma concat_singletons {T} (l : list T) :
  concat (map (fun t => [t]) l) = l.
Proof. induction l as [| a l IH]; [reflexivity |]. cbn. now rewrite IH. Qed.

Section SettlingFacts.

Context {T : Type}.
Variable f : T -> io unit.
Variable outcome : T -> string * result CsvFile.

(** Running one more task that settles. *)
Lemma settled_snoc (ran : list T) (t : T) (fs0 fs : filesystem)
    (failure : option exn) :
  settles f outcome t ->
  settled outcome ran fs0 fs failure ->
  settled outcome (ran ++ [t]) fs0 (fst (f t fs))
    (match snd (f t fs) with
     | Ok _ => failure
     | Err e => match failure with
                | Some e0 => Some e0
                | None => Some e
                end
     end).
Proof.
  intros Ht [Hfs Hfail]. rewrite (Ht fs). unfold settled.
  rewrite List.map_app, successes_app, failures_app, apply_writes_app, <- Hfs.
  cbn [map]. rewrite successes_one, failures_one.
  destruct (snd (outcome t)) as [table | e]; cbn [fst snd].
  - split; [reflexivity |]. rewrite List.app_nil_r. exact Hfail.
  - split; [reflexivity |].
    destruct failure as [e0 |].
    + apply List.in_or_app. now left.
    + rewrite Hfail. now left.
Qed.

Lemma pool_step_singles (args : list T) (fs0 : filesystem)
    (st : Mp.pool_state) (c : nat) :
  (forall t, List.In t args -> settles f outcome t) ->
  singles_inv outcome args fs0 st ->
  singles_inv outcome args fs0 (Mp.pool_step f st c).
Proof.
  intros Hall (Hlen & ran & Hperm & Hset). unfold Mp.pool_step.
  destruct (Mp.pending st !! c) as [[| t rest] |] eqn:Hc;
    try (split; [assumption | exists ran; now split]).
  assert (Hrest : rest = []).
  { pose proof (Forall_lookup_1 _ _ _ _ Hlen Hc) as Hl.
    destruct rest; [reflexivity | simpl in Hl; lia]. }
  subst rest.
  pose proof (concat_insert_head _ _ _ _ Hc) as Hhead.
  assert (Ht : List.In t args).
  { eapply Permutation.Permutation_in; [exact Hperm |].
    apply List.in_or_app. right.
    eapply Permutation.Permutation_in;
      [apply Permutation.Permutation_sym, Hhead | now left]. }
  pose proof (settled_snoc ran t fs0 _ _ (Hall t Ht) Hset) as Hnext.
  assert (Hperm' : Permutation
            ((ran ++ [t]) ++ concat (<[c := []]> (Mp.pending st))) args).
  { rewrite <- Hperm, <- List.app_assoc.
    apply Permutation.Permutation_app_head. simpl.
    now apply Permutation.Permutation_sym. }
  assert (Hlen' : Forall (fun chunk : list T => List.length chunk <= 1)
                    (<[c := []]> (Mp.pending st))).
  { apply Forall_insert; [exact Hlen | simpl; lia]. }
  destruct (f t (Mp.files st)) as [fs' [u | e]]; cbn [fst snd] in Hnext;
    (split; [exact Hlen' | exists (ran ++ [t]); split; [exact Hperm' |]]);
    exact Hnext.
Qed.

Lemma run_schedule_singles (args : list T) (fs0 : filesystem)
    (sched : list nat) (st : Mp.pool_state) :
  (forall t, List.In t args -> settles f outcome t) ->
  singles_inv outcome args fs0 st ->
  singles_inv outcome args fs0 (Mp.run_schedule f sched st).
Proof.
  intros Hall. revert st. unfold Mp.run_schedule.
  induction sched as [| c sched IH]; intros st Hinv; [exact Hinv |].
  cbn [fold_left]. apply IH. now apply pool_step_singles.
Qed.

Lemma drain_singles (args : list T) (fs0 : filesystem)
    (chunks : list (list T)) :
  (forall t, List.In t args -> settles f outcome t) ->
  Forall (fun chunk : list T => List.length chunk <= 1) chunks ->
  (forall t, List.In t (concat chunks) -> List.In t args) ->
  forall (ran : list T) (fs : filesystem) (failure : option exn),
    settled outcome ran fs0 fs failure ->
    let r := fold_left
               (fun acc chunk => Mp.run_chunk f chunk (fst acc) (snd acc))
               chunks (fs, failure) in
    settled outcome (ran ++ concat chunks) fs0 (fst r) (snd r).
Proof.
  intros Hall Hlen. induction Hlen as [| ch chs Hch Hchs IH];
    intros Hin ran fs failure Hset.
  - cbn. now rewrite List.app_nil_r.
  - cbn [fold_left concat fst snd].
    destruct ch as [| t [| t' rest]]; [| | simpl in Hch; lia].
    + cbn [Mp.run_chunk app]. apply IH; [| exact Hset].
      intros t Ht. apply Hin. exact Ht.
    + assert (Ht : List.In t args) by (apply Hin; now left).
      pose proof (settled_snoc ran t fs0 fs failure (Hall t Ht) Hset)
        as Hnext.
      cbn [Mp.run_chunk]. rewrite List.app_assoc.
      destruct (f t fs) as [fs' [u | e]]; cbn [fst snd] in Hnext;
        (apply IH; [intros x Hx; apply Hin; now right | exact Hnext]).
Qed.

(** With no more tasks than four times the workers every task is a chunk
    of its own, and a task that raises stops no other: under every
    schedule every task runs, the files are the writes of the tasks that
    do not raise, and the pool raises one of the tasks' exceptions when
    there is one and returns otherwise. *)
Lemma starmap_settling (sched : list nat) (processes : Z) (args : list T)
    (fs : filesystem) :
  (1 <= processes)%Z ->
  List.length args <= 4 * Z.to_nat processes ->
  (forall t, List.In t args -> settles f outcome t) ->
  exists order,
    Permutation order (successes (map outcome args))
    /\ fst (Mp.starmap f sched processes args fs) = apply_writes order fs
    /\ match snd (Mp.starmap f sched processes args fs) with
       | Ok _ => failures (map outcome args) = []
       | Err e => List.In e (failures (map outcome args))
       end.
Proof.
  intros Hp Hfew Hall. unfold Mp.starmap.
  destruct (Z.ltb_spec processes 1) as [Hlt | _]; [lia |].
  set (st0 := {| Mp.pending := _; Mp.files := fs; Mp.failure := None |}).
  assert (Hpend : Mp.pending st0 = map (fun t => [t]) args).
  { unfold st0. cbn [Mp.pending].
    destruct args as [| a args']; [reflexivity |].
    rewrite chunksize_one by (simpl in *; lia).
    now apply chunks_of_one. }
  assert (Hinv0 : singles_inv outcome args fs st0).
  { split.
    - rewrite Hpend. apply Forall_forall. intros ch Hch.
      apply list_elem_of_In, List.in_map_iff in Hch as (t & <- & _).
      simpl. lia.
    - exists []. rewrite Hpend, concat_singletons. split; [reflexivity |].
      split; reflexivity. }
  destruct (run_schedule_singles args fs sched st0 Hall Hinv0)
    as (Hlen & ran & Hperm & Hset).
  unfold Mp.drain.
  pose proof (drain_singles args fs _ Hall Hlen) as Hdrain.
  specialize (Hdrain
    (fun t Ht => Permutation.Permutation_in t Hperm
                   (List.in_or_app _ _ _ (or_intror Ht)))
    ran _ _ Hset).
  cbv zeta in Hdrain.
  destruct (fold_left _ _ _) as [fs' failed]. cbn [fst snd] in *.
  destruct Hdrain as [Hfs Hfail].
  set (all := ran ++ concat (Mp.pending (Mp.run_schedule f sched st0))) in *.
  assert (Hs : Permutation (successes (map outcome all))
                 (successes (map outcome args))).
  { apply Permutation.Permutation_flat_map, Permutation.Permutation_map.
    exact Hperm. }
  assert (Hf : Permutation (failures (map outcome all))
                 (failures (map outcome args))).
  { apply Permutation.Permutation_flat_map, Permutation.Permutation_map.
    exact Hperm. }
  exists (successes (map outcome all)). split; [exact Hs |].
  split; [exact Hfs |].
  destruct failed as [e |]; cbn [snd].
  - eapply Permutation.Permutation_in; [exact Hf | exact Hfail].
  - rewrite Hfail in Hf. now apply Permutation.Permutation_nil.
Qed.

End SettlingFacts.

(* ===================================================================== *)
(** ** More on the batch orchestrator *)
(* ===================================================================== *)

Lemma run_until_failure_cons_ok (path : string) (table : CsvFile)
    (rest : list (string * result CsvFile)) :
  run_until_failure ((path, Ok table) :: rest) =
    ((path, table) :: fst (run_until_failure rest),
     snd (run_until_failure rest)).
Proof. cbn [run_until_failure]. now destruct (run_until_failure rest). Qed.

Section OrchestratorMore.

Variable nib_load : string -> result (Nifti1Image ndarray4).
Variable load_img : string -> result (Nifti1Image (list Z)).
Variable read_csv : string -> result DataFrame.
Variable fit_transform :
  masker -> Nifti1Image ndarray4 -> option ndarray2 -> result ndarray2.
Variable labels_ : masker -> labels.
Variable writable : string -> bool.

Local Abbreviation driver :=
  (_mask_and_save nib_load read_csv fit_transform labels_ writable).
Local Abbreviation batch :=
  (make_timeseries nib_load load_img read_csv fit_transform labels_
                   writable).

Variable m : masker.
Variable output_dir : string.
Variable regressor_names : option (list string).
Variable realign_derivs as_voxels : bool.
Variable labels : option labels.
Variable discard_scans : option Z.

Local Abbreviation run t_r :=
  (task nib_load read_csv fit_transform labels_ writable m output_dir
        regressor_names realign_derivs t_r as_voxels labels discard_scans).
Local Abbreviation outcome t_r :=
  (task_outcome nib_load read_csv fit_transform labels_ writable m
     output_dir regressor_names realign_derivs t_r as_voxels labels
     discard_scans).

Lemma task_settles (t_r : value) (a : string * option string) :
  settles (run t_r) (outcome t_r) a.
Proof.
  intros fs. destruct a as [img file]. unfold task, task_outcome.
  cbn [fst snd]. apply mask_and_save_outcome.
Qed.

(** The sequential loop from index [k] on, when every image has a confound
    entry: it runs the images in order up to the first whose driver
    raises. *)
Lemma sequential_loop_until_failure
    (kwargs : gmap string value) (t_r : value) (rf : list (option string)) :
  kwargs !! "t_r" = Some t_r ->
  forall (inputs : list string) (k : nat) (fs : filesystem),
    List.length inputs <= List.length (skipn k rf) ->
    for_each
      (fun '(i, img) =>
         file ← lift (getitem rf i);
         t_r ← lift (dict_getitem kwargs "t_r");
         driver m img output_dir file regressor_names realign_derivs t_r
                as_voxels labels discard_scans)
      (combine (seq k (List.length inputs)) inputs) fs =
    (apply_writes
       (fst (run_until_failure
               (map (outcome t_r) (combine inputs (skipn k rf))))) fs,
     snd (run_until_failure
            (map (outcome t_r) (combine inputs (skipn k rf))))).
Proof.
  intros Htr.
  set (body := fun '(i, img) =>
         file ← lift (getitem rf i);
         t_r ← lift (dict_getitem kwargs "t_r");
         driver m img output_dir file regressor_names realign_derivs t_r
                as_voxels labels discard_scans).
  induction inputs as [| img rest IH]; intros k fs Hlen.
  - reflexivity.
  - cbn [List.length seq combine].
    rewrite for_each_cons.
    destruct (skipn k rf) as [| file tl] eqn:Hk; [simpl in Hlen; lia |].
    destruct (skipn_cons_nth_error _ _ _ _ Hk) as [Hnth Hk'].
    assert (Hbody : body (k, img) fs =
              driver m img output_dir file regressor_names realign_derivs
                     t_r as_voxels labels discard_scans fs).
    { unfold body, mbind, io_mbind, io_bind, lift, getitem, dict_getitem.
      now rewrite Hnth, Htr. }
    rewrite Hbody, mask_and_save_outcome.
    cbn [combine map]. unfold task_outcome at 1 3. cbn [fst snd].
    destruct (written_table _ _ _ _ _ _ _ _ _ _ _ _ _ _ _) as [table | e].
    + rewrite run_until_failure_cons_ok. cbn [fst snd].
      rewrite IH by (rewrite Hk'; simpl in Hlen; lia).
      rewrite Hk'. reflexivity.
    + reflexivity.
Qed.

(** X18.  Sequential mode, with the masker built, [t_r] present and a
    confound entry for every image (or no confound list): the images are
    processed in input order up to the first whose driver raises; the
    tables of the images before it are written, its exception is the
    batch's, and no later image is touched.  When none raises, every table
    is written and the batch returns. *)
Theorem sequential_batch_stops_at_first_failure
    (sched : list nat) (input_files : list string) (mask : niimg_like)
    (mimg : Nifti1Image (list Z)) (kwargs : gmap string value) (t_r : value)
    (regressor_files : option (list string)) (fs : filesystem) :
  load_niimg load_img mask = Ok mimg ->
  _set_masker mimg kwargs = Ok m ->
  kwargs !! "t_r" = Some t_r ->
  let rf := match regressor_files with
            | None => repeat None (List.length input_files)
            | Some l => map Some l
            end in
  List.length input_files <= List.length rf ->
  batch sched input_files mask output_dir labels regressor_files
        regressor_names realign_derivs as_voxels discard_scans 1 kwargs fs =
    (apply_writes
       (fst (run_until_failure
               (map (outcome t_r) (combine input_files rf)))) fs,
     snd (run_until_failure (map (outcome t_r) (combine input_files rf)))).
Proof.
  intros Hload Hmasker Htr rf Hlen. unfold make_timeseries.
  rewrite Hload, io_bind_lift_ok. cbn beta.
  rewrite Hmasker, io_bind_lift_ok. cbn beta.
  cbn [Z.eqb Pos.eqb]. unfold enumerate. fold rf.
  now rewrite (sequential_loop_until_failure kwargs t_r rf Htr input_files 0 fs).
Qed.

(** X19.  Parallel mode, with the masker built, [t_r] present and no more
    tasks than four times the workers: a driver that raises stops no other
    image.  Under every schedule the tables of all the images whose driver
    does not raise are written (in some order), and the batch raises the
    exception of one of the failing images when there is one and returns
    otherwise. *)
Theorem parallel_batch_runs_every_task
    (sched : list nat) (input_files : list string) (mask : niimg_like)
    (mimg : Nifti1Image (list Z)) (kwargs : gmap string value) (t_r : value)
    (regressor_files : option (list string)) (n_jobs : Z) (fs : filesystem) :
  load_niimg load_img mask = Ok mimg ->
  _set_masker mimg kwargs = Ok m ->
  kwargs !! "t_r" = Some t_r ->
  (1 < n_jobs)%Z ->
  let rf := match regressor_files with
            | None => repeat None (List.length input_files)
            | Some l => map Some l
            end in
  let tasks := combine input_files rf in
  List.length tasks <= 4 * Z.to_nat n_jobs ->
  let result :=
    batch sched input_files mask output_dir labels regressor_files
          regressor_names realign_derivs as_voxels discard_scans n_jobs
          kwargs fs in
  exists order,
    Permutation order (successes (map (outcome t_r) tasks))
    /\ fst result = apply_writes order fs
    /\ match snd result with
       | Ok _ => failures (map (outcome t_r) tasks) = []
       | Err e => List.In e (failures (map (outcome t_r) tasks))
       end.
Proof.
  intros Hload Hmasker Htr Hn rf tasks Hfew result.
  destruct (starmap_settling (run t_r) (outcome t_r) sched n_jobs tasks fs)
    as (order & Hperm & Hfs & Hres);
    [lia | exact Hfew | intros t _; apply task_settles |].
  exists order. split; [exact Hperm |].
  unfold result, make_timeseries, mbind, io_mbind, io_bind, lift.
  rewrite Hload, Hmasker.
  destruct (Z.eqb_spec n_jobs 1) as [E | _]; [lia |].
  unfold dict_getitem. rewrite Htr. fold rf. fold tasks.
  split; [exact Hfs | exact Hres].
Qed.

(** X20.  An empty list of images, with the masker built: sequential mode
    returns at once, writing nothing, [t_r] present or not; parallel mode
    does the same when [t_r] is present and the worker count is above 1. *)
Theorem batch_of_no_image
    (sched : list nat) (mask : niimg_like) (mimg : Nifti1Image (list Z))
    (kwargs : gmap string value) (regressor_files : option (list string))
    (fs : filesystem) :
  load_niimg load_img mask = Ok mimg ->
  _set_masker mimg kwargs = Ok m ->
  batch sched [] mask output_dir labels regressor_files regressor_names
        realign_derivs as_voxels discard_scans 1 kwargs fs = (fs, Ok tt)
  /\ forall n_jobs t_r,
       (1 < n_jobs)%Z -> kwargs !! "t_r" = Some t_r ->
       batch sched [] mask output_dir labels regressor_files regressor_names
             realign_derivs as_voxels discard_scans n_jobs kwargs fs =
         (fs, Ok tt).
Proof.
  intros Hload Hmasker. split.
  - unfold make_timeseries. rewrite Hload, io_bind_lift_ok. cbn beta.
    rewrite Hmasker, io_bind_lift_ok. reflexivity.
  - intros n_jobs t_r Hn Htr.
    destruct (starmap_settling (run t_r) (outcome t_r) sched n_jobs [] fs)
      as (order & Hperm & Hfs & Hres);
      [lia | simpl; lia | intros t [] |].
    apply Permutation.Permutation_sym, Permutation.Permutation_nil in Hperm.
    subst order.
    unfold make_timeseries, mbind, io_mbind, io_bind, lift.
    rewrite Hload, Hmasker.
    destruct (Z.eqb_spec n_jobs 1) as [E | _]; [lia |].
    unfold dict_getitem. rewrite Htr. cbn [combine].
    destruct (Mp.starmap _ _ _ _ _) as [fs' [[] | e]];
      cbn [fst snd] in *; [now subst | contradiction].
Qed.

(** X21.  A worker count of 0 or below is not sequential mode: with the
    masker built and [t_r] present the pool refuses it, and the batch
    raises [ValueError] without writing, whatever the images. *)
Theorem batch_with_no_worker
    (sched : list nat) (input_files : list string) (mask : niimg_like)
    (mimg : Nifti1Image (list Z)) (kwargs : gmap string value) (t_r : value)
    (regressor_files : option (list string)) (n_jobs : Z) (fs : filesystem) :
  load_niimg load_img mask = Ok mimg ->
  _set_masker mimg kwargs = Ok m ->
  kwargs !! "t_r" = Some t_r ->
  (n_jobs < 1)%Z ->
  batch sched input_files mask output_dir labels regressor_files
        regressor_names realign_derivs as_voxels discard_scans n_jobs
        kwargs fs =
    (fs, Err (ValueError "Number of processes must be at least 1")).
Proof.
  intros Hload Hmasker Htr Hn.
  unfold make_timeseries, mbind, io_mbind, io_bind, lift.
  rewrite Hload, Hmasker.
  destruct (Z.eqb_spec n_jobs 1) as [E | _]; [lia |].
  unfold dict_getitem. rewrite Htr. unfold Mp.starmap.
  destruct (Z.ltb_spec n_jobs 1); [reflexivity | lia].
Qed.

(** X11.  A mask in which every voxel holds the same value (all
    background, all ones, or no voxel at all) has no region for the
    selector, which raises "No ROI detected"; the batch then raises it
    before anything else: no image is read, no file written, and neither a
    missing [t_r] nor a bad worker count is looked at. *)
Theorem batch_without_region_raises_first
    (sched : list nat) (input_files : list string) (mask : niimg_like)
    (mimg : Nifti1Image (list Z)) (kwargs : gmap string value) (v : Z)
    (regressor_files : option (list string)) (n_jobs : Z) (fs : filesystem) :
  load_niimg load_img mask = Ok mimg ->
  (forall x, List.In x (get_data mimg) -> x = v) ->
  _set_masker mimg kwargs =
    Err (ValueError "No ROI detected; check ROI file")
  /\ batch sched input_files mask output_dir labels regressor_files
           regressor_names realign_derivs as_voxels discard_scans n_jobs
           kwargs fs =
       (fs, Err (ValueError "No ROI detected; check ROI file")).
Proof.
  intros Hload Hall.
  assert (E : _set_masker mimg kwargs =
                Err (ValueError "No ROI detected; check ROI file")).
  { unfold _set_masker.
    destruct (unique_constant v _ Hall) as [-> | ->]; reflexivity. }
  split; [exact E |].
  unfold make_timeseries, mbind, io_mbind, io_bind, lift.
  now rewrite Hload, E.
Qed.

End OrchestratorMore.

Lemma sequential_batch_stops_at_first_failure_witness :
  Toy.batch [] ["a.nii.gz"; "missing.nii.gz"; "c.nii.gz"]
            (InMemory Toy.atlas) "out" None None None false false None 1
            Toy.t_r_2 ∅ =
    ({[ "out/a_timeseries.tsv" := Toy.table_of_bold ]},
     Err (OSError "No such file or no access")).
Proof.
  unfold Toy.batch.
  rewrite (sequential_batch_stops_at_first_failure Toy.nib_load Toy.load_img
             Toy.read_csv Toy.fit_transform Toy.labels_ Toy.writable
             (NiftiLabelsMasker Toy.atlas Toy.t_r_2) "out" None false false
             None None [] ["a.nii.gz"; "missing.nii.gz"; "c.nii.gz"]
             (InMemory Toy.atlas) Toy.atlas Toy.t_r_2 (VFloat 2) None ∅).
  - reflexivity.
  - reflexivity.
  - reflexivity.
  - reflexivity.
  - simpl. lia.
Defined.

Lemma parallel_batch_runs_every_task_witness :
  exists order,
    Permutation order
      [("out/a_timeseries.tsv", Toy.table_of_bold);
       ("out/c_timeseries.tsv", Toy.table_of_bold)]
    /\ fst (Toy.batch [1%nat] ["a.nii.gz"; "missing.nii.gz"; "c.nii.gz"]
                      (InMemory Toy.atlas) "out" None None None false false
                      None 2 Toy.t_r_2 ∅) = apply_writes order ∅
    /\ snd (Toy.batch [1%nat] ["a.nii.gz"; "missing.nii.gz"; "c.nii.gz"]
                      (InMemory Toy.atlas) "out" None None None false false
                      None 2 Toy.t_r_2 ∅) =
         Err (OSError "No such file or no access").
Proof.
  destruct (parallel_batch_runs_every_task Toy.nib_load Toy.load_img
              Toy.read_csv Toy.fit_transform Toy.labels_ Toy.writable
              (NiftiLabelsMasker Toy.atlas Toy.t_r_2) "out" None false false
              None None [1%nat] ["a.nii.gz"; "missing.nii.gz"; "c.nii.gz"]
              (InMemory Toy.atlas) Toy.atlas Toy.t_r_2 (VFloat 2) None 2 ∅)
    as (order & Hperm & Hfs & _).
  - reflexivity.
  - reflexivity.
  - reflexivity.
  - lia.
  - simpl. lia.
  - exists order. split; [exact Hperm |]. split; [exact Hfs | reflexivity].
Defined.

Lemma batch_of_no_image_witness :
  Toy.batch [] [] (InMemory Toy.atlas) "out" None None None false false None
            1 ∅ ∅ = (∅, Ok tt)
  /\ Toy.batch [] [] (InMemory Toy.atlas) "out" None None None false false
               None 4 Toy.t_r_2 ∅ = (∅, Ok tt).
Proof.
  split.
  - apply (batch_of_no_image Toy.nib_load Toy.load_img Toy.read_csv
             Toy.fit_transform Toy.labels_ Toy.writable
             (NiftiLabelsMasker Toy.atlas ∅)
             "out" None false false None None [] (InMemory Toy.atlas)
             Toy.atlas ∅ None ∅); reflexivity.
  - apply (batch_of_no_image Toy.nib_load Toy.load_img Toy.read_csv
             Toy.fit_transform Toy.labels_ Toy.writable
             (NiftiLabelsMasker Toy.atlas Toy.t_r_2)
             "out" None false false None None [] (InMemory Toy.atlas)
             Toy.atlas Toy.t_r_2 None ∅ eq_refl eq_refl) with (t_r := VFloat 2);
      [lia | reflexivity].
Defined.

Lemma batch_with_no_worker_witness :
  Toy.batch [] ["a.nii.gz"] (InMemory Toy.atlas) "out" None None None false
            false None 0 Toy.t_r_2 ∅ =
    (∅, Err (ValueError "Number of processes must be at least 1")).
Proof.
  apply (batch_with_no_worker Toy.nib_load Toy.load_img Toy.read_csv
           Toy.fit_transform Toy.labels_ Toy.writable
           (NiftiLabelsMasker Toy.atlas Toy.t_r_2) "out" None false false
           None None [] ["a.nii.gz"] (InMemory Toy.atlas) Toy.atlas
           Toy.t_r_2 (VFloat 2) None 0 ∅); try reflexivity.
Defined.

Lemma batch_without_region_raises_first_witness :
  Toy.batch [] ["a.nii.gz"] (InMemory Toy.all_ones) "out" None None None
            false false None 0 ∅ ∅ =
    (∅, Err (ValueError "No ROI detected; check ROI file")).
Proof.
  apply (batch_without_region_raises_first Toy.nib_load Toy.load_img
           Toy.read_csv Toy.fit_transform Toy.labels_ Toy.writable "out" None
           false false
           None None [] ["a.nii.gz"] (InMemory Toy.all_ones) Toy.all_ones ∅
           1%Z None 0 ∅).
  - reflexivity.
  - simpl. intuition.
Defined.

(* ===================================================================== *)
(** ** The repository's test of the trimmer *)
(* ===================================================================== *)

(** X22.  The assertions of [test_discard_initial_scans] hold on an image
    exactly when it has at least three frames: with fewer, no frame is
    left and the frame count is not the original count less three.  On the
    fixture, one image repeated over ten volumes, they hold, and the seven
    frames left are copies of that image under its affine. *)
Theorem test_discard_initial_scans_passes
    (img : Nifti1Image ndarray4) (atlas : Nifti1Image (list Q)) :
  test_discard_initial_scans img = Ok (3 <=? n_frames img)%nat
  /\ test_discard_initial_scans (atlas_data atlas) = Ok true
  /\ _discard_initial_scans (atlas_data atlas) 3 None =
       Ok (concat_repeated atlas 7, None).
Proof.
  split; [| split; reflexivity].
  unfold test_discard_initial_scans, _discard_initial_scans, slice_time.
  cbn [mbind result_bind Py.bind]. rewrite slice_from_nonneg by lia.
  unfold n_frames. cbn [get_data]. rewrite List.length_skipn.
  rewrite andb_true_r. f_equal.
  destruct (Nat.leb_spec 3 (List.length (get_data img)));
    destruct (Z.eqb_spec
                (Z.of_nat (List.length (get_data img) - Z.to_nat 3))
                (Z.of_nat (List.length (get_data img)) - 3));
    try reflexivity; lia.
Qed.

(* ===================================================================== *)
(** ** The width of the confound matrix *)
(* ===================================================================== *)

Lemma compute_realign_derivs_n_cols (regressors out : DataFrame)
    (t_r : value) :
  _compute_realign_derivs regressors t_r = Ok out ->
  n_cols (values out) =
    n_cols (values regressors)
    + List.length (List.filter is_realign (columns regressors)).
Proof.
  unfold _compute_realign_derivs. cbn [select].
  destruct (locate_filter_found is_realign (columns regressors)) as [idx ->].
  cbn [fmap result_fmap mbind result_bind Py.bind].
  destruct (Np.gradient _ _) as [derivs | e];
    cbn [mbind result_bind Py.bind]; [| discriminate].
  unfold DataFrame_new. cbn [as_2d].
  destruct (Nat.eqb_spec (n_cols derivs)
              (List.length
                 (map (fun i => (i ++ "_d")%string)
                      (List.filter is_realign (columns regressors)))))
    as [E | _]; [| discriminate].
  cbn [mbind result_bind Py.bind]. intros [= <-].
  cbn [concat_axis1 values n_cols]. rewrite E. now rewrite List.length_map.
Qed.

Lemma names_of_located (cols names : list string) (idx : list nat) :
  List.Forall2 (fun nm j => nth_error cols j = Some nm) names idx ->
  map (fun j => nth j cols EmptyString) idx = names.
Proof.
  induction 1 as [| nm j names idx Hj Hall IH]; [reflexivity |].
  cbn [map]. rewrite IH. f_equal. now apply List.nth_error_nth.
Qed.

Section ConfoundBuilderWidth.

Variable read_csv : string -> result DataFrame.

(** X23.  On a file whose header has no repeated name and holds every
    requested name, a matrix the builder returns under derivative
    augmentation has one column per requested name and one more per
    requested name that contains [rot] or [trans]. *)
Theorem build_regressors_width
    (fname : string) (names : list string) (all_regressors : DataFrame)
    (t_r : value) (m : ndarray2) :
  read_csv fname = Ok all_regressors ->
  List.NoDup (columns all_regressors) ->
  (forall nm, List.In nm names -> List.In nm (columns all_regressors)) ->
  _build_regressors read_csv fname (Some names) true t_r = Ok m ->
  n_cols m =
    List.length names + List.length (List.filter is_realign names).
Proof.
  intros Hread Hnd Hin.
  destruct (locate_unique (columns all_regressors) names Hnd Hin)
    as (idx & Hloc & Hall).
  unfold _build_regressors. rewrite Hread.
  cbn [mbind result_bind Py.bind select]. rewrite Hloc.
  cbn [mbind result_bind Py.bind].
  assert (Hout : forall out,
            _compute_realign_derivs (take_columns idx all_regressors) t_r =
              Ok out ->
            n_cols (values out) =
              List.length names + List.length (List.filter is_realign names)).
  { intros out E. rewrite (compute_realign_derivs_n_cols _ _ _ E).
    cbn [take_columns columns values n_cols].
    rewrite (names_of_located _ _ _ Hall).
    now rewrite (List.Forall2_length Hall). }
  destruct t_r; try discriminate;
    match goal with
    | |- context [_compute_realign_derivs ?r ?t] =>
        destruct (_compute_realign_derivs r t) as [out | e] eqn:E
    end; cbn [mbind result_bind Py.bind]; try discriminate;
    intros [= <-]; now apply Hout.
Qed.

End ConfoundBuilderWidth.

Lemma build_regressors_width_witness :
  n_cols {| n_cols := 3; rows := [[3; 1; 1 # 2]; [6; 2; 3 # 4];
                                  [12; 4; 2 # 2]]%Q |} =
    List.length ["other"; "rot_x"]
    + List.length (List.filter is_realign ["other"; "rot_x"]).
Proof.
  apply (build_regressors_width Toy.read_csv "confounds.tsv"
           ["other"; "rot_x"] Toy.confound_table (VFloat 2)).
  - reflexivity.
  - vm_compute. repeat constructor; simpl; intuition discriminate.
  - simpl. intuition.
  - reflexivity.
Defined.
